(** * Copytrading: the trade-mirroring engine

    A shallow embedding of the polling service (trade_monitor.py, main.py)
    and of the stream service (background_service.py), with the properties
    of the mirroring engine stated over it.

    The SQLite tables are finite maps keyed by their UNIQUE column(s); the
    exchange and SQLite are the environment: every call to them takes the
    answer the environment gives to that call as an argument. *)

From Stdlib Require Import ZArith QArith Qabs String DecimalString DecimalPos DecimalZ.
From stdpp Require Import gmap strings list fin_maps.

Local Open Scope Z_scope.

(** ** Answers of the environment *)

(** What a call to an exchange client gives back: a value, or an exception
    carrying its message. *)
Inductive Response (A : Type) : Type :=
  | Returns (a : A)
  | Raises (msg : string).
Arguments Returns {A} a.
Arguments Raises {A} msg.

(** What placing an order on the target account gives back.  python-binance
    raises [BinanceAPIException] (with [e.message]) for an answer of the
    venue that is an error, and other exceptions (timeouts, connection
    errors) for the rest. *)
Inductive OrderResponse : Type :=
  | OrderAccepted (orderId : Z)
  | BinanceAPIException (message : string)
  | OtherException (str : string).

(** A response that is not an accepted order. *)
Definition refused (response : OrderResponse) : Prop :=
  match response with OrderAccepted _ => False | _ => True end.

(** The parameters of a market order. *)
Record OrderParams : Type := mkOrder {
  o_symbol : string;
  o_side : string;
  o_type : string;
  o_quantity : Q
}.

(** The requests a target client has sent, oldest first.  Each request is
    kept with the identifier of the source fill it copies (the trade id on
    the polling path, the order id on the stream path); the identifier is
    not transmitted, it only tells the requests apart. *)
Definition OrderLog (K : Type) : Type := list (K * OrderParams).

(** ** trade_monitor.py *)

Module TradeDatabase.

(** One record of the account trade list, as [get_new_trades] and
    [save_trade] read it; [qty] and [price] are the parsed decimals. *)
Record Trade : Type := mkTrade {
  id : Z;
  symbol : string;
  side : string;
  qty : Q;
  price : Q;
  time : Z
}.

(** A row of [processed_trades], without its [trade_id], which is the key
    of the table ([trade_id INTEGER UNIQUE]).  The surrogate key and
    [created_at] are filled by SQLite and never read. *)
Record Row : Type := mkRow {
  r_symbol : string;
  r_side : string;
  r_quantity : Q;
  r_price : Q;
  r_timestamp : Z;
  copied : bool
}.

(** The file data/trades.db. *)
Record t : Type := mkDb {
  processed_trades : gmap Z Row;
  settings : gmap string string
}.

Definition init_database : t :=
  {| processed_trades := ∅; settings := ∅ |}.

Definition row_of (trade_data : Trade) : Row :=
  {| r_symbol := symbol trade_data;
     r_side := side trade_data;
     r_quantity := qty trade_data;
     r_price := price trade_data;
     r_timestamp := time trade_data;
     copied := false |}.

(** [save_trade]: INSERT OR IGNORE, then [cursor.rowcount > 0].  When
    anything inside the [try] raises ([raises = true]) nothing is written
    and the answer is [False]. *)
Definition save_trade (raises : bool) (trade_data : Trade) (db : t) : t * bool :=
  if raises then (db, false)
  else match processed_trades db !! id trade_data with
       | Some _ => (db, false)
       | None =>
           ({| processed_trades := <[id trade_data := row_of trade_data]> (processed_trades db);
               settings := settings db |}, true)
       end.

(** [is_trade_processed]: whether a row with this [trade_id] exists.  There
    is no [try] here: [None] is an exception leaving the method. *)
Definition is_trade_processed (raises : bool) (trade_id : Z) (db : t) : option bool :=
  if raises then None
  else Some (bool_decide (is_Some (processed_trades db !! trade_id))).

Definition set_copied (r : Row) : Row :=
  {| r_symbol := r_symbol r; r_side := r_side r; r_quantity := r_quantity r;
     r_price := r_price r; r_timestamp := r_timestamp r; copied := true |}.

(** [mark_trade_copied]: UPDATE ... SET copied = TRUE WHERE trade_id = ?.
    [None] is an exception leaving the method. *)
Definition mark_trade_copied (raises : bool) (trade_id : Z) (db : t) : option t :=
  if raises then None
  else Some {| processed_trades := alter set_copied trade_id (processed_trades db);
               settings := settings db |}.

Definition get_setting (key : string) (db : t) : option string :=
  settings db !! key.

Definition set_setting (key value : string) (db : t) : t :=
  {| processed_trades := processed_trades db;
     settings := <[key := value]> (settings db) |}.

End TradeDatabase.

(** [str(n)] and [int(s)] on the decimal strings that [str] writes. *)
Definition py_str (n : Z) : string := NilZero.string_of_int (Z.to_int n).

Definition py_int (s : string) : option Z :=
  Z.of_int <$> NilZero.int_of_string s.

(** Python's truth value of a string: the empty string is false. *)
Definition truthy (s : string) : bool :=
  match s with EmptyString => false | _ => true end.

Module BinanceTradeMonitor.
Import TradeDatabase.

(** The source client: [get_account_trades(symbol, startTime, limit)]. *)
Definition UMFutures : Type := string → Z → nat → Response (list Trade).

(** The monitor's own field; the database is the file it shares with the
    copier and the service. *)
Record t : Type := mkMonitor { start_time : Z }.

(** [_get_start_time], [now] being [int(time.time() * 1000)].  [None] is
    the [ValueError] of [int(saved_time)]. *)
Definition _get_start_time (now : Z) (db : TradeDatabase.t) : option (Z * TradeDatabase.t) :=
  match get_setting "monitor_start_time" db with
  | Some saved_time =>
      if truthy saved_time
      then (λ n, (n, db)) <$> py_int saved_time
      else Some (now, set_setting "monitor_start_time" (py_str now) db)
  | None => Some (now, set_setting "monitor_start_time" (py_str now) db)
  end.

(** [__init__], as far as the monitor's state goes. *)
Definition init (now : Z) (db : TradeDatabase.t) : option (t * TradeDatabase.t) :=
  (λ r : Z * TradeDatabase.t, ({| start_time := r.1 |}, r.2)) <$> _get_start_time now db.

(** What SQLite does for one trade of the batch: whether the lookup and
    the save raise. *)
Record StoreFault : Type := mkFault { lookup_raises : bool; save_raises : bool }.

Definition healthy : StoreFault := {| lookup_raises := false; save_raises := false |}.

(** The [for trade in trades] loop of [get_new_trades].  The second
    component is [None] when an exception left the loop; what was saved
    until then stays saved. *)
Fixpoint filter_new (faults : list StoreFault) (trades new_trades : list Trade)
    (db : TradeDatabase.t) : TradeDatabase.t * option (list Trade) :=
  match trades with
  | [] => (db, Some new_trades)
  | trade :: rest =>
      let f := hd healthy faults in
      match is_trade_processed (lookup_raises f) (id trade) db with
      | None => (db, None)
      | Some true => filter_new (tl faults) rest new_trades db
      | Some false =>
          filter_new (tl faults) rest (new_trades ++ [trade])
            (save_trade (save_raises f) trade db).1
      end
  end.

Definition get_new_trades (client : UMFutures) (faults : list StoreFault)
    (symbol : string) (self : t) (db : TradeDatabase.t) : TradeDatabase.t * list Trade :=
  match client symbol (start_time self) 1000%nat with
  | Raises _ => (db, [])
  | Returns trades =>
      match filter_new faults trades [] db with
      | (db', Some new_trades) => (db', new_trades)
      | (db', None) => (db', [])
      end
  end.

Definition symbols : list string :=
  ["BTCUSDT"; "ETHUSDT"; "ADAUSDT"; "BNBUSDT"; "XRPUSDT"]%string.

(** The loop of [get_all_symbols_trades] over a list of symbols; [faults]
    gives SQLite's behaviour during the poll of each symbol. *)
Fixpoint poll_symbols (client : UMFutures) (faults : string → list StoreFault)
    (syms : list string) (self : t) (all_trades : list Trade)
    (db : TradeDatabase.t) : TradeDatabase.t * list Trade :=
  match syms with
  | [] => (db, all_trades)
  | symbol :: rest =>
      let r := get_new_trades client (faults symbol) symbol self db in
      poll_symbols client faults rest self (all_trades ++ r.2) r.1
  end.

Definition get_all_symbols_trades (client : UMFutures) (faults : string → list StoreFault)
    (self : t) (db : TradeDatabase.t) : TradeDatabase.t * list Trade :=
  poll_symbols client faults symbols self [] db.

End BinanceTradeMonitor.

Module BinanceTradeCopier.
Import TradeDatabase.

(** The copier's view of the world: the shared database file and the
    requests its client has sent to the target account. *)
Record World : Type := mkWorld {
  db : TradeDatabase.t;
  requests : OrderLog Z
}.

(** What the environment does during one [copy_trade]: the answer to
    [new_order] and whether [mark_trade_copied] raises. *)
Record CopyEnv : Type := mkCopyEnv {
  order_response : OrderResponse;
  mark_raises : bool
}.

Definition order_params (trade_data : Trade) : OrderParams :=
  {| o_symbol := symbol trade_data;
     o_side := side trade_data;
     o_type := "MARKET";
     o_quantity := qty trade_data |}.

(** [copy_trade]: one [new_order]; any exception gives [False]. *)
Definition copy_trade (env : CopyEnv) (trade_data : Trade) (w : World) : World * bool :=
  let sent := requests w ++ [(id trade_data, order_params trade_data)] in
  match order_response env with
  | OrderAccepted _ =>
      match mark_trade_copied (mark_raises env) (id trade_data) (db w) with
      | Some db' => ({| db := db'; requests := sent |}, true)
      | None => ({| db := db w; requests := sent |}, false)
      end
  | BinanceAPIException _ | OtherException _ =>
      ({| db := db w; requests := sent |}, false)
  end.

Definition quiet : CopyEnv :=
  {| order_response := OrderAccepted 0; mark_raises := false |}.

(** [copy_trades]; the [k]-th element of [envs] is the environment of the
    [k]-th [copy_trade]. *)
Fixpoint copy_trades (envs : list CopyEnv) (trades : list Trade) (w : World)
    (copied_count : nat) : World * nat :=
  match trades with
  | [] => (w, copied_count)
  | trade :: rest =>
      let r := copy_trade (hd quiet envs) trade w in
      copy_trades (tl envs) rest r.1 (if r.2 then S copied_count else copied_count)
  end.

End BinanceTradeCopier.

(** ** main.py *)

Module TradeCopierService.
Import TradeDatabase.

Record Stats : Type := mkStats {
  total_trades_found : nat;
  total_trades_copied : nat
}.

Record t : Type := mkService {
  monitor : BinanceTradeMonitor.t;
  world : BinanceTradeCopier.World;
  stats : Stats
}.

(** The environment of one monitoring cycle. *)
Record CycleEnv : Type := mkCycleEnv {
  source : BinanceTradeMonitor.UMFutures;
  store_faults : string → list BinanceTradeMonitor.StoreFault;
  copy_envs : list BinanceTradeCopier.CopyEnv
}.

(** [_monitoring_cycle]. *)
Definition _monitoring_cycle (env : CycleEnv) (self : t) : t :=
  let polled :=
    BinanceTradeMonitor.get_all_symbols_trades (source env) (store_faults env)
      (monitor self) (BinanceTradeCopier.db (world self)) in
  let new_trades := polled.2 in
  let w := {| BinanceTradeCopier.db := polled.1;
              BinanceTradeCopier.requests := BinanceTradeCopier.requests (world self) |} in
  match new_trades with
  | [] => {| monitor := monitor self; world := w; stats := stats self |}
  | _ =>
      let copied := BinanceTradeCopier.copy_trades (copy_envs env) new_trades w 0 in
      {| monitor := monitor self;
         world := copied.1;
         stats := {| total_trades_found :=
                       (total_trades_found (stats self) + length new_trades)%nat;
                     total_trades_copied :=
                       (total_trades_copied (stats self) + copied.2)%nat |} |}
  end.

(** The [while self.running] loop, one environment per cycle. *)
Definition run (envs : list CycleEnv) (self : t) : t :=
  foldl (λ s env, _monitoring_cycle env s) self envs.

(** A cycle during which SQLite never fails. *)
Definition store_healthy (env : CycleEnv) : Prop :=
  (∀ symbol, Forall (λ f, f = BinanceTradeMonitor.healthy) (store_faults env symbol)).

(** [test_connection] of the monitor and of the copier: whether
    [client.time()] answered. *)
Definition test_connection (server_time : Response Z) : bool :=
  match server_time with Returns _ => true | Raises _ => false end.

(** [_test_connections]: both tests are made, then combined. *)
Definition _test_connections (monitor_time copier_time : Response Z) : bool :=
  let monitor_ok := test_connection monitor_time in
  let copier_ok := test_connection copier_time in
  monitor_ok && copier_ok.

(** [start]: the connection tests, then the loop; [envs] are the cycles
    that run before [stop] clears [running].  The answer is the value
    [start] returns. *)
Definition start (monitor_time copier_time : Response Z) (envs : list CycleEnv)
    (self : t) : t * bool :=
  if _test_connections monitor_time copier_time
  then (run envs self, true)
  else (self, false).

End TradeCopierService.

(** ** background_service.py *)

Module DatabaseManager.

(** A row of [trades]; the surrogate key and the timestamps are filled by
    SQLite and never read. *)
Record TradeRecord : Type := mkTradeRecord {
  source_account : string;
  target_account : string;
  tr_symbol : string;
  tr_side : string;
  tr_quantity : Q;
  tr_price : Q;
  tr_order_id : option Z;
  status : string;
  error_message : option string;
  source_order_id : option Z
}.

(** One element of [futures_position_information]; [None] is a key the
    dict does not have. *)
Record Position : Type := mkPosition {
  p_symbol : option string;
  positionAmt : option Q;
  entryPrice : option Q;
  markPrice : option Q;
  unRealizedProfit : option Q;
  p_percentage : option Q
}.

(** A row of [positions], without the two columns of its UNIQUE key
    [(account_type, symbol)]. *)
Record PositionRow : Type := mkPositionRow {
  side : string;
  size : Q;
  entry_price : Q;
  mark_price : Q;
  pnl : Q;
  percentage : Q
}.

(** The file data/trading.db: [trades] in insertion order, [positions]
    by [(account_type, symbol)]. *)
Record t : Type := mkDb {
  trades : list TradeRecord;
  positions : gmap (string * string) PositionRow
}.

Definition init_database : t := {| trades := []; positions := ∅ |}.

(** [save_trade]: one INSERT; [None] is an exception leaving the method. *)
Definition save_trade (raises : bool) (trade_data : TradeRecord) (db : t) : option t :=
  if raises then None
  else Some {| trades := trades db ++ [trade_data]; positions := positions db |}.

(** [float(pos.get(key, 0))]. *)
Definition get0 (field : option Q) : Q := default 0%Q field.

(** [float(pos.get('positionAmt', 0)) != 0]. *)
Definition is_open (pos : Position) : bool :=
  negb (Qeq_bool (get0 (positionAmt pos)) 0%Q).

Definition position_row (pos : Position) : PositionRow :=
  {| side := if negb (Qle_bool (get0 (positionAmt pos)) 0%Q) then "LONG" else "SHORT";
     size := Qabs (get0 (positionAmt pos));
     entry_price := get0 (entryPrice pos);
     mark_price := get0 (markPrice pos);
     pnl := get0 (unRealizedProfit pos);
     percentage := get0 (p_percentage pos) |}.

(** DELETE FROM positions WHERE account_type = ?. *)
Definition delete_account (account_type : string)
    (tbl : gmap (string * string) PositionRow) : gmap (string * string) PositionRow :=
  filter (λ kv : (string * string) * PositionRow, kv.1.1 ≠ account_type) tbl.

(** The [for pos in positions] loop of [update_positions]: INSERT OR
    REPLACE for the positions that are open.  [symbol] is NOT NULL and has
    no default: a position without one aborts the statement, which is the
    [None]. *)
Fixpoint insert_open (account_type : string) (positions : list Position)
    (tbl : gmap (string * string) PositionRow) : option (gmap (string * string) PositionRow) :=
  match positions with
  | [] => Some tbl
  | pos :: rest =>
      if is_open pos then
        match p_symbol pos with
        | Some symbol =>
            insert_open account_type rest (<[(account_type, symbol) := position_row pos]> tbl)
        | None => None
        end
      else insert_open account_type rest tbl
  end.

(** [update_positions]: the stored table afterwards, and whether the call
    returned.  When a statement raises, [commit] is never reached and the
    stored table is the one before the call. *)
Definition update_positions (account_type : string) (positions : list Position)
    (db : t) : t * bool :=
  match insert_open account_type positions (delete_account account_type (DatabaseManager.positions db)) with
  | Some tbl => ({| trades := trades db; positions := tbl |}, true)
  | None => (db, false)
  end.


End DatabaseManager.

Module BinanceWebSocketManager.

(** [slept] lists the arguments of [time.sleep], in seconds, oldest
    first. *)
Record t : Type := mkManager {
  listen_key : option string;
  running : bool;
  reconnect_attempts : nat;
  max_reconnect_attempts : nat;
  slept : list Z
}.

Definition init : t :=
  {| listen_key := None; running := false; reconnect_attempts := 0;
     max_reconnect_attempts := 10; slept := [] |}.

(** [get_listen_key]. *)
Definition get_listen_key (response : Response string) : option string :=
  match response with
  | Returns listenKey => Some listenKey
  | Raises _ => None
  end.

(** [start_user_data_stream] up to [run_forever], whose callbacks are the
    events that follow. *)
Definition start_user_data_stream (response : Response string) (self : t) : t :=
  match get_listen_key response with
  | Some key =>
      if truthy key then
        {| listen_key := Some key; running := true;
           reconnect_attempts := reconnect_attempts self;
           max_reconnect_attempts := max_reconnect_attempts self;
           slept := slept self |}
      else
        {| listen_key := Some key; running := running self;
           reconnect_attempts := reconnect_attempts self;
           max_reconnect_attempts := max_reconnect_attempts self;
           slept := slept self |}
  | None =>
      {| listen_key := None; running := running self;
         reconnect_attempts := reconnect_attempts self;
         max_reconnect_attempts := max_reconnect_attempts self;
         slept := slept self |}
  end.

Definition on_open (self : t) : t :=
  {| listen_key := listen_key self; running := running self;
     reconnect_attempts := 0;
     max_reconnect_attempts := max_reconnect_attempts self;
     slept := slept self |}.

Definition on_error (self : t) : t := self.

(** [on_close]; [response] answers the listen-key request of the
    reconnection. *)
Definition on_close (response : Response string) (self : t) : t :=
  if running self && (reconnect_attempts self <? max_reconnect_attempts self)%nat
  then
    start_user_data_stream response
      {| listen_key := listen_key self; running := running self;
         reconnect_attempts := S (reconnect_attempts self);
         max_reconnect_attempts := max_reconnect_attempts self;
         slept := slept self ++ [5] |}
  else self.

(** The socket's callbacks, in the order they are called. *)
Inductive Event : Type :=
  | Opened
  | Failed
  | Closed (response : Response string).

Definition handle (self : t) (e : Event) : t :=
  match e with
  | Opened => on_open self
  | Failed => on_error self
  | Closed response => on_close response self
  end.


(** How many times the socket closed in a sequence of events. *)
Definition is_close (event : Event) : bool :=
  match event with Closed _ => true | _ => false end.

Definition closes (events : list Event) : nat :=
  length (filter (λ event, is_close event = true) events).

Definition run (events : list Event) (self : t) : t := foldl handle self events.

(** Faults in a row: the socket closes again before it has opened;
    [responses] are the answers to the listen-key requests of the
    reconnections. *)
Definition faults (responses : list (Response string)) : list Event :=
  Closed <$> responses.


(** What the callback receives. *)
Record TradeInfo : Type := mkTradeInfo {
  symbol : string;
  side : string;
  quantity : Q;
  price : Q;
  order_id : option Z;
  timestamp : Z
}.


End BinanceWebSocketManager.

Module TradeCopyService.
Import BinanceWebSocketManager.

(** The dict [copy_trade] returns; [None] is a key it does not have. *)
Record CopyResult : Type := mkCopyResult {
  success : bool;
  res_order_id : option Z;
  error : option string
}.

(** The service: its in-memory set of order ids, its database file, and
    the requests [target_client] has sent. *)
Record t : Type := mkService {
  processed_orders : gset (option Z);
  db : DatabaseManager.t;
  requests : OrderLog (option Z)
}.

Definition init : t :=
  {| processed_orders := ∅; db := DatabaseManager.init_database; requests := [] |}.

(** What the environment does during one [handle_new_trade]. *)
Record Env : Type := mkEnv {
  order_response : OrderResponse;
  save_raises : bool
}.

Definition order_params (trade_info : TradeInfo) : OrderParams :=
  {| o_symbol := symbol trade_info;
     o_side := side trade_info;
     o_type := "MARKET";
     o_quantity := quantity trade_info |}.

(** [copy_trade]: one [futures_create_order]; the request that was sent
    and the dict that is returned. *)
Definition copy_trade (response : OrderResponse) (trade_info : TradeInfo)
    (sent : OrderLog (option Z)) : OrderLog (option Z) * CopyResult :=
  let sent' := sent ++ [(order_id trade_info, order_params trade_info)] in
  match response with
  | OrderAccepted orderId =>
      (sent', {| success := true; res_order_id := Some orderId; error := None |})
  | BinanceAPIException message =>
      (sent', {| success := false; res_order_id := None;
                 error := Some ("Binance API Error: " ++ message)%string |})
  | OtherException str =>
      (sent', {| success := false; res_order_id := None;
                 error := Some ("Unexpected error: " ++ str)%string |})
  end.

Definition trade_data (trade_info : TradeInfo) (result : CopyResult) : DatabaseManager.TradeRecord :=
  {| DatabaseManager.source_account := "real";
     DatabaseManager.target_account := "testnet";
     DatabaseManager.tr_symbol := symbol trade_info;
     DatabaseManager.tr_side := side trade_info;
     DatabaseManager.tr_quantity := quantity trade_info;
     DatabaseManager.tr_price := price trade_info;
     DatabaseManager.tr_order_id := res_order_id result;
     DatabaseManager.status := if success result then "success" else "failed";
     DatabaseManager.error_message := error result;
     DatabaseManager.source_order_id := order_id trade_info |}.

(** [handle_new_trade]. *)
Definition handle_new_trade (env : Env) (trade_info : TradeInfo) (self : t) : t :=
  if bool_decide (order_id trade_info ∈ processed_orders self) then self
  else
    let seen := processed_orders self ∪ {[order_id trade_info]} in
    let copied := copy_trade (order_response env) trade_info (requests self) in
    match DatabaseManager.save_trade (save_raises env) (trade_data trade_info copied.2) (db self) with
    | Some db' => {| processed_orders := seen; db := db'; requests := copied.1 |}
    | None => {| processed_orders := seen; db := db self; requests := copied.1 |}
    end.


(** A run of deliveries, each with its environment. *)
Definition deliver (events : list (Env * TradeInfo)) (self : t) : t :=
  foldl (λ s e, handle_new_trade e.1 e.2 s) self events.



(** What the environment does during one [update_positions] of the
    service: the answers of the two accounts. *)
Record PositionsEnv : Type := mkPositionsEnv {
  real_positions : Response (list DatabaseManager.Position);
  test_positions : Response (list DatabaseManager.Position)
}.

(** [update_positions] of the service: any exception ends the pass. *)
Definition update_positions (env : PositionsEnv) (self : t) : t :=
  match real_positions env with
  | Raises _ => self
  | Returns real =>
      let r := DatabaseManager.update_positions "real" real (db self) in
      if r.2 then
        match test_positions env with
        | Raises _ => {| processed_orders := processed_orders self; db := r.1; requests := requests self |}
        | Returns test =>
            {| processed_orders := processed_orders self;
               db := (DatabaseManager.update_positions "testnet" test r.1).1;
               requests := requests self |}
        end
      else {| processed_orders := processed_orders self; db := r.1; requests := requests self |}
  end.

End TradeCopyService.

(** ** Concrete inputs *)

Module Examples.

Definition long_eth : DatabaseManager.Position :=
  {| DatabaseManager.p_symbol := Some "ETHUSDT";
     DatabaseManager.positionAmt := Some (2 # 1)%Q;
     DatabaseManager.entryPrice := Some (3000 # 1)%Q;
     DatabaseManager.markPrice := Some (3010 # 1)%Q;
     DatabaseManager.unRealizedProfit := Some (20 # 1)%Q;
     DatabaseManager.p_percentage := None |}.

Definition flat_btc : DatabaseManager.Position :=
  {| DatabaseManager.p_symbol := Some "BTCUSDT";
     DatabaseManager.positionAmt := Some (0 # 1)%Q;
     DatabaseManager.entryPrice := Some (0 # 1)%Q;
     DatabaseManager.markPrice := Some (60000 # 1)%Q;
     DatabaseManager.unRealizedProfit := Some (0 # 1)%Q;
     DatabaseManager.p_percentage := None |}.

Definition short_xrp : DatabaseManager.Position :=
  {| DatabaseManager.p_symbol := Some "XRPUSDT";
     DatabaseManager.positionAmt := Some (-3 # 2)%Q;
     DatabaseManager.entryPrice := Some (1 # 2)%Q;
     DatabaseManager.markPrice := Some (2 # 5)%Q;
     DatabaseManager.unRealizedProfit := Some (3 # 20)%Q;
     DatabaseManager.p_percentage := None |}.

Definition fetched : list DatabaseManager.Position := [long_eth; flat_btc; short_xrp].

Definition stale_row : DatabaseManager.PositionRow :=
  {| DatabaseManager.side := "LONG"; DatabaseManager.size := (1 # 100)%Q;
     DatabaseManager.entry_price := (59000 # 1)%Q; DatabaseManager.mark_price := (59500 # 1)%Q;
     DatabaseManager.pnl := (5 # 1)%Q; DatabaseManager.percentage := (0 # 1)%Q |}.

(** Both accounts hold a BTCUSDT row from an earlier pass. *)
Definition stored : DatabaseManager.t :=
  {| DatabaseManager.trades := [];
     DatabaseManager.positions :=
       <[("real", "BTCUSDT")%string := stale_row]>
         (<[("testnet", "BTCUSDT")%string := stale_row]> ∅) |}.

(** A manager whose stream has been started. *)
Definition started : BinanceWebSocketManager.t :=
  BinanceWebSocketManager.start_user_data_stream (Returns "listen-key")
    BinanceWebSocketManager.init.

(** A filled order of the source account, as the stream reports it. *)
Definition filled : BinanceWebSocketManager.TradeInfo :=
  {| BinanceWebSocketManager.symbol := "BTCUSDT";
     BinanceWebSocketManager.side := "BUY";
     BinanceWebSocketManager.quantity := (1 # 100)%Q;
     BinanceWebSocketManager.price := (60000 # 1)%Q;
     BinanceWebSocketManager.order_id := Some 77;
     BinanceWebSocketManager.timestamp := 1700000000500 |}.

Definition rejects : TradeCopyService.Env :=
  {| TradeCopyService.order_response := BinanceAPIException "insufficient margin";
     TradeCopyService.save_raises := false |}.

Definition times_out : TradeCopyService.Env :=
  {| TradeCopyService.order_response := OtherException "Read timed out.";
     TradeCopyService.save_raises := false |}.

Definition accepts : TradeCopyService.Env :=
  {| TradeCopyService.order_response := OrderAccepted 5001;
     TradeCopyService.save_raises := false |}.

(** The same fill in the account trade list, and an older one. *)
Definition fill : TradeDatabase.Trade :=
  {| TradeDatabase.id := 1001; TradeDatabase.symbol := "BTCUSDT";
     TradeDatabase.side := "BUY"; TradeDatabase.qty := (1 # 100)%Q;
     TradeDatabase.price := (60000 # 1)%Q; TradeDatabase.time := 1700000000500 |}.

Definition old_fill : TradeDatabase.Trade :=
  {| TradeDatabase.id := 900; TradeDatabase.symbol := "BTCUSDT";
     TradeDatabase.side := "SELL"; TradeDatabase.qty := (1 # 10)%Q;
     TradeDatabase.price := (59000 # 1)%Q; TradeDatabase.time := 1699999999000 |}.

(** A source venue that answers from the account's trade history: the
    trades of the symbol from [startTime] on, at most [limit] of them. *)
Definition venue (history : list TradeDatabase.Trade) : BinanceTradeMonitor.UMFutures :=
  λ symbol startTime limit,
    Returns (take limit
               (filter (λ trade, TradeDatabase.symbol trade = symbol
                                 ∧ startTime ≤ TradeDatabase.time trade) history)).

Definition first_start : Z := 1700000000000.

(** The polling service after its first start at [first_start]. *)
Definition service0 : TradeCopierService.t :=
  {| TradeCopierService.monitor := {| BinanceTradeMonitor.start_time := first_start |};
     TradeCopierService.world :=
       {| BinanceTradeCopier.db :=
            TradeDatabase.set_setting "monitor_start_time" (py_str first_start)
              TradeDatabase.init_database;
          BinanceTradeCopier.requests := [] |};
     TradeCopierService.stats :=
       {| TradeCopierService.total_trades_found := 0;
          TradeCopierService.total_trades_copied := 0 |} |}.

(** The same service with a row for [fill] that was never marked copied. *)
Definition service_failed_earlier : TradeCopierService.t :=
  {| TradeCopierService.monitor := TradeCopierService.monitor service0;
     TradeCopierService.world :=
       {| BinanceTradeCopier.db :=
            (TradeDatabase.save_trade false fill
               (BinanceTradeCopier.db (TradeCopierService.world service0))).1;
          BinanceTradeCopier.requests := [] |};
     TradeCopierService.stats := TradeCopierService.stats service0 |}.

Definition save_fails : BinanceTradeMonitor.StoreFault :=
  {| BinanceTradeMonitor.lookup_raises := false; BinanceTradeMonitor.save_raises := true |}.

Definition lookup_fails : BinanceTradeMonitor.StoreFault :=
  {| BinanceTradeMonitor.lookup_raises := true; BinanceTradeMonitor.save_raises := false |}.

(** A cycle in which the venue answers from [history], SQLite behaves as
    [faults] say during each poll, and every order is accepted. *)
Definition cycle (history : list TradeDatabase.Trade)
    (faults : list BinanceTradeMonitor.StoreFault) : TradeCopierService.CycleEnv :=
  {| TradeCopierService.source := venue history;
     TradeCopierService.store_faults := λ _, faults;
     TradeCopierService.copy_envs := [] |}.

End Examples.

(** ** The spec's wording, for comparison *)

Module Spec.

(** "the configured exponential sequence (e.g. 5s, 10s, 20s)": base 5
    seconds, doubling with each fault. *)
Definition exponential_delays (n : nat) : list Z :=
  (λ k : nat, 5 * 2 ^ Z.of_nat k) <$> seq 0 n.

(** "retries up to a small fixed count": a failure of the transport is
    followed by at least one more request. *)
Definition retried (sent_before sent_after : nat) : Prop :=
  (sent_before + 2 ≤ sent_after)%nat.

(** "advances Cursor[instrument] to the maximum eventTimeMillis observed
    in the batch". *)
Definition advanced_cursor (cursor : Z) (batch : list TradeDatabase.Trade) : Z :=
  foldr Z.max cursor (TradeDatabase.time <$> batch).

End Spec.

(** * Properties *)

(** ** Position synchronization *)

Section Positions.
Import DatabaseManager.

Implicit Types tbl : gmap (string * string) PositionRow.
Implicit Types fetched : list Position.

Lemma delete_account_other account_type tbl a symbol :
  a ≠ account_type →
  delete_account account_type tbl !! (a, symbol) = tbl !! (a, symbol).
Proof.
  intros Hne. unfold delete_account.
  destruct (tbl !! (a, symbol)) as [row|] eqn:Hrow.
  - apply map_lookup_filter_Some. by split.
  - apply map_lookup_filter_None. by left.
Qed.

Lemma delete_account_own account_type tbl symbol :
  delete_account account_type tbl !! (account_type, symbol) = None.
Proof.
  unfold delete_account. apply map_lookup_filter_None. right.
  intros row _ Hkeep. by apply Hkeep.
Qed.

Lemma insert_open_other account_type fetched : ∀ tbl tbl' a symbol,
  insert_open account_type fetched tbl = Some tbl' →
  a ≠ account_type →
  tbl' !! (a, symbol) = tbl !! (a, symbol).
Proof.
  induction fetched as [|pos rest IH]; intros tbl tbl' a symbol Hrun Hne; simpl in Hrun.
  - by inversion Hrun.
  - destruct (is_open pos); [|by eapply IH].
    destruct (p_symbol pos) as [sym|]; [|done].
    rewrite (IH _ _ _ _ Hrun Hne).
    apply lookup_insert_ne. congruence.
Qed.

Lemma insert_open_own account_type fetched : ∀ tbl tbl' symbol row,
  insert_open account_type fetched tbl = Some tbl' →
  tbl' !! (account_type, symbol) = Some row →
  tbl !! (account_type, symbol) = Some row
  ∨ ∃ pos, pos ∈ fetched ∧ is_open pos = true
           ∧ p_symbol pos = Some symbol ∧ row = position_row pos.
Proof.
  induction fetched as [|pos rest IH]; intros tbl tbl' symbol row Hrun Hrow; simpl in Hrun.
  - left. by inversion Hrun; subst.
  - destruct (is_open pos) eqn:Hopen.
    + destruct (p_symbol pos) as [sym|] eqn:Hsym; [|done].
      destruct (IH _ _ _ _ Hrun Hrow) as [Hold | (pos' & Hin & ?)].
      * destruct (decide (sym = symbol)) as [->|Hne].
        -- rewrite lookup_insert_eq in Hold. inversion Hold; subst.
           right. exists pos. split; [apply list_elem_of_here | done].
        -- left. rewrite lookup_insert_ne in Hold; [done | congruence].
      * right. exists pos'. split; [by apply list_elem_of_further | done].
    + destruct (IH _ _ _ _ Hrun Hrow) as [Hold | (pos' & Hin & ?)]; [by left|].
      right. exists pos'. split; [by apply list_elem_of_further | done].
Qed.

Lemma insert_open_keeps account_type fetched : ∀ tbl tbl' k,
  insert_open account_type fetched tbl = Some tbl' →
  is_Some (tbl !! k) → is_Some (tbl' !! k).
Proof.
  induction fetched as [|pos rest IH]; intros tbl tbl' k Hrun Hk; simpl in Hrun.
  - by inversion Hrun; subst.
  - destruct (is_open pos); [|by eapply IH].
    destruct (p_symbol pos) as [sym|]; [|done].
    eapply IH; [done|].
    destruct (decide ((account_type, sym) = k)) as [<-|Hne].
    + rewrite lookup_insert_eq. by eexists.
    + by rewrite lookup_insert_ne.
Qed.

Lemma insert_open_written account_type fetched : ∀ tbl tbl' pos,
  insert_open account_type fetched tbl = Some tbl' →
  pos ∈ fetched → is_open pos = true →
  ∃ symbol, p_symbol pos = Some symbol ∧ is_Some (tbl' !! (account_type, symbol)).
Proof.
  induction fetched as [|pos0 rest IH]; intros tbl tbl' pos Hrun Hin Hopen; simpl in Hrun.
  - by apply elem_of_nil in Hin.
  - apply elem_of_cons in Hin as [->|Hin].
    + rewrite Hopen in Hrun.
      destruct (p_symbol pos0) as [sym|] eqn:Hsym; [|done].
      exists sym. split; [done|].
      eapply insert_open_keeps; [done|].
      rewrite lookup_insert_eq. by eexists.
    + destruct (is_open pos0); [|by eapply IH].
      destruct (p_symbol pos0) as [sym|]; [|done].
      by eapply IH.
Qed.

Lemma insert_open_returns account_type fetched : ∀ tbl,
  (∀ pos, pos ∈ fetched → is_open pos = true → is_Some (p_symbol pos)) →
  is_Some (insert_open account_type fetched tbl).
Proof.
  induction fetched as [|pos rest IH]; intros tbl Hwf; simpl.
  - by eexists.
  - assert (∀ p, p ∈ rest → is_open p = true → is_Some (p_symbol p)) as Hrest.
    { intros p Hp. apply Hwf. by apply list_elem_of_further. }
    destruct (is_open pos) eqn:Hopen; [|by apply IH].
    destruct (Hwf pos (list_elem_of_here _ _) Hopen) as [sym ->].
    by apply IH.
Qed.

Lemma open_size_nonzero pos :
  is_open pos = true → Qeq_bool (size (position_row pos)) 0%Q = false.
Proof.
  unfold is_open, position_row. simpl.
  destruct (get0 (positionAmt pos)) as [n d].
  unfold Qeq_bool, Qabs. simpl.
  destruct n; simpl; done.
Qed.

End Positions.

Section PositionClaims.
Import DatabaseManager.

(** C8. A synchronization pass replaces the account's stored positions by
    the open positions of the fetch.  When every open position of the
    fetch names its symbol, [update_positions] returns, and afterwards:
    each row stored for the account is the row of an open position of the
    fetch (so no row from before the pass is left, and none has size
    zero); each open position of the fetch has a row; and a symbol whose
    fetched positions all have amount zero has no row, whatever was
    stored for it before. *)
Theorem update_positions_replaces (account_type : string)
    (fetched : list Position) (db : DatabaseManager.t) :
  (∀ pos, pos ∈ fetched → is_open pos = true → is_Some (p_symbol pos)) →
  ∃ db', update_positions account_type fetched db = (db', true)
    ∧ (∀ symbol row, positions db' !! (account_type, symbol) = Some row →
         ∃ pos, pos ∈ fetched ∧ is_open pos = true ∧ p_symbol pos = Some symbol
                ∧ row = position_row pos ∧ Qeq_bool (size row) 0%Q = false)
    ∧ (∀ pos, pos ∈ fetched → is_open pos = true →
         ∃ symbol, p_symbol pos = Some symbol
                   ∧ is_Some (positions db' !! (account_type, symbol)))
    ∧ (∀ symbol,
         (∀ pos, pos ∈ fetched → p_symbol pos = Some symbol → is_open pos = false) →
         positions db' !! (account_type, symbol) = None).
Proof.
  intros Hwf. unfold update_positions.
  destruct (insert_open_returns account_type fetched
              (delete_account account_type (positions db)) Hwf) as [tbl Hrun].
  rewrite Hrun. eexists. split; [reflexivity|]. simpl.
  assert (∀ symbol row, tbl !! (account_type, symbol) = Some row →
            ∃ pos, pos ∈ fetched ∧ is_open pos = true ∧ p_symbol pos = Some symbol
                   ∧ row = position_row pos ∧ Qeq_bool (size row) 0%Q = false) as Hfresh.
  { intros symbol row Hrow.
    destruct (insert_open_own _ _ _ _ _ _ Hrun Hrow) as [Hold | (pos & Hin & Hopen & Hsym & ->)].
    - by rewrite delete_account_own in Hold.
    - exists pos. repeat split; try done. by apply open_size_nonzero. }
  split; [exact Hfresh|]. split.
  - intros pos Hin Hopen. by eapply insert_open_written.
  - intros symbol Hflat.
    destruct (tbl !! (account_type, symbol)) as [row|] eqn:Hrow; [|done].
    destruct (Hfresh _ _ Hrow) as (pos & Hin & Hopen & Hsym & _).
    rewrite (Hflat pos Hin Hsym) in Hopen. done.
Qed.

Lemma update_positions_replaces_witness :
  ∃ db', update_positions "real" Examples.fetched Examples.stored = (db', true)
    ∧ (∀ symbol row, positions db' !! ("real"%string, symbol) = Some row →
         ∃ pos, pos ∈ Examples.fetched ∧ is_open pos = true ∧ p_symbol pos = Some symbol
                ∧ row = position_row pos ∧ Qeq_bool (size row) 0%Q = false)
    ∧ (∀ pos, pos ∈ Examples.fetched → is_open pos = true →
         ∃ symbol, p_symbol pos = Some symbol
                   ∧ is_Some (positions db' !! ("real"%string, symbol)))
    ∧ (∀ symbol,
         (∀ pos, pos ∈ Examples.fetched → p_symbol pos = Some symbol → is_open pos = false) →
         positions db' !! ("real"%string, symbol) = None).
Proof.
  apply (update_positions_replaces "real" Examples.fetched Examples.stored).
  intros pos Hin _. unfold Examples.fetched in Hin.
  repeat (apply elem_of_cons in Hin as [->|Hin]; [simpl; eauto|]).
  by apply elem_of_nil in Hin.
Defined.

(** C10. [update_positions] leaves the rows of every other account as
    they were: for an [account_type] other than the argument, the stored
    row of each symbol is the same before and after the call, whether the
    call returns or raises; the [trades] table is not touched either. *)
Theorem update_positions_frame (account_type : string) (fetched : list Position)
    (db : DatabaseManager.t) (a symbol : string) :
  a ≠ account_type →
  positions (update_positions account_type fetched db).1 !! (a, symbol)
    = positions db !! (a, symbol)
  ∧ trades (update_positions account_type fetched db).1 = trades db.
Proof.
  intros Hne. unfold update_positions.
  destruct (insert_open account_type fetched (delete_account account_type (positions db)))
    as [tbl|] eqn:Hrun; simpl; [|done].
  split; [|done].
  rewrite (insert_open_other _ _ _ _ _ _ Hrun Hne).
  by apply delete_account_other.
Qed.

Lemma update_positions_frame_witness :
  positions (update_positions "real" Examples.fetched Examples.stored).1
      !! ("testnet"%string, "BTCUSDT"%string)
    = positions Examples.stored !! ("testnet"%string, "BTCUSDT"%string)
  ∧ trades (update_positions "real" Examples.fetched Examples.stored).1
    = trades Examples.stored.
Proof.
  apply (update_positions_frame "real" Examples.fetched Examples.stored "testnet" "BTCUSDT").
  discriminate.
Defined.

End PositionClaims.

(** ** Reconnection *)

Section Reconnection.
Import BinanceWebSocketManager.

Lemma on_close_running response self :
  running self = true → running (on_close response self) = true.
Proof.
  intros Hrun. unfold on_close, start_user_data_stream. rewrite Hrun. simpl.
  destruct (reconnect_attempts self <? max_reconnect_attempts self)%nat; [|done].
  destruct (get_listen_key response) as [key|]; [|done].
  by destruct (truthy key).
Qed.

Lemma on_close_max response self :
  max_reconnect_attempts (on_close response self) = max_reconnect_attempts self.
Proof.
  unfold on_close, start_user_data_stream.
  destruct (running self && _); [|done].
  destruct (get_listen_key response) as [key|]; [|done].
  by destruct (truthy key).
Qed.

Lemma on_close_step response self :
  running self = true →
  (reconnect_attempts self < max_reconnect_attempts self)%nat →
  slept (on_close response self) = slept self ++ [5]
  ∧ reconnect_attempts (on_close response self) = S (reconnect_attempts self).
Proof.
  intros Hrun Hlt. unfold on_close, start_user_data_stream. rewrite Hrun. simpl.
  apply Nat.ltb_lt in Hlt. rewrite Hlt.
  destruct (get_listen_key response) as [key|]; [|done].
  by destruct (truthy key).
Qed.

Lemma on_close_exhausted response self :
  (max_reconnect_attempts self ≤ reconnect_attempts self)%nat →
  on_close response self = self.
Proof.
  intros Hge. unfold on_close.
  apply Nat.ltb_ge in Hge. rewrite Hge. by rewrite andb_false_r.
Qed.

Lemma faults_exhausted responses : ∀ self,
  (max_reconnect_attempts self ≤ reconnect_attempts self)%nat →
  run (faults responses) self = self.
Proof.
  induction responses as [|response rest IH]; intros self Hge; [done|].
  unfold run, faults in *. simpl. rewrite on_close_exhausted by done. by apply IH.
Qed.

Lemma faults_delays responses : ∀ self,
  running self = true →
  let retries := (length responses `min`
                   (max_reconnect_attempts self - reconnect_attempts self))%nat in
  slept (run (faults responses) self) = slept self ++ replicate retries 5
  ∧ reconnect_attempts (run (faults responses) self)
    = (reconnect_attempts self + retries)%nat.
Proof.
  induction responses as [|response rest IH]; intros self Hrun retries; subst retries.
  - simpl. by rewrite app_nil_r, Nat.add_0_r.
  - destruct (decide (reconnect_attempts self < max_reconnect_attempts self)%nat) as [Hlt|Hge].
    + destruct (on_close_step response self Hrun Hlt) as [Hslept Hatt].
      destruct (IH (on_close response self) (on_close_running _ _ Hrun)) as [IHs IHa].
      replace (length (response :: rest) `min`
                 (max_reconnect_attempts self - reconnect_attempts self))%nat
        with (S (length rest `min` (max_reconnect_attempts self - S (reconnect_attempts self))))%nat
        by (simpl length; lia).
      change (run (faults (response :: rest)) self)
        with (run (faults rest) (on_close response self)).
      rewrite IHs, IHa, Hslept, Hatt, on_close_max.
      cbn [replicate]. rewrite <- app_assoc. split; [done | lia].
    + rewrite (faults_exhausted (response :: rest)) by lia.
      replace (max_reconnect_attempts self - reconnect_attempts self)%nat with 0%nat by lia.
      rewrite Nat.min_0_r. simpl. by rewrite app_nil_r, Nat.add_0_r.
Qed.

(** C7, as the code has it.  After any number of faults in a row the
    reconnection delays are all 5 seconds: one delay per fault until
    [max_reconnect_attempts] is reached, none after that; the sequence is
    therefore non-decreasing.  [on_open] puts the attempt counter back to
    0 at once, whatever time the connection then lasts. *)
Theorem reconnect_delays_constant (responses : list (Response string))
    (self : BinanceWebSocketManager.t) :
  running self = true →
  let retries := (length responses `min`
                   (max_reconnect_attempts self - reconnect_attempts self))%nat in
  let self' := run (faults responses) self in
  slept self' = slept self ++ replicate retries 5
  ∧ reconnect_attempts self' = (reconnect_attempts self + retries)%nat
  ∧ (∀ (j k : nat) (d e : Z), (j ≤ k)%nat →
       replicate retries 5 !! j = Some d → replicate retries 5 !! k = Some e → d ≤ e)
  ∧ reconnect_attempts (on_open self') = 0%nat.
Proof.
  intros Hrun retries self'.
  destruct (faults_delays responses self Hrun) as [Hslept Hatt].
  repeat split; try done.
  intros j k d e _ Hd He.
  apply lookup_replicate in Hd as [-> _]. apply lookup_replicate in He as [-> _]. done.
Qed.

Lemma reconnect_delays_constant_witness :
  let responses := [Returns "k1"; Returns "k2"; Returns "k3"]%string in
  let self' := run (faults responses) Examples.started in
  slept self' = slept Examples.started ++ replicate 3 5
  ∧ reconnect_attempts self' = 3%nat
  ∧ (∀ (j k : nat) (d e : Z), (j ≤ k)%nat →
       replicate 3 5 !! j = Some d → replicate 3 5 !! k = Some e → d ≤ e)
  ∧ reconnect_attempts (on_open self') = 0%nat.
Proof.
  apply (reconnect_delays_constant [Returns "k1"; Returns "k2"; Returns "k3"]%string
           Examples.started).
  reflexivity.
Defined.

(** C7, as the spec words it, fails: three faults in a row are followed
    by delays of 5, 5 and 5 seconds, not 5, 10 and 20. *)
Lemma reconnect_delays_not_exponential :
  slept (run (faults [Returns "k1"; Returns "k2"; Returns "k3"]%string) Examples.started)
    = [5; 5; 5]
  ∧ slept (run (faults [Returns "k1"; Returns "k2"; Returns "k3"]%string) Examples.started)
    ≠ Spec.exponential_delays 3.
Proof. split; [reflexivity | discriminate]. Qed.

End Reconnection.

(** ** Replication on the stream path *)

Section Replication.
Import BinanceWebSocketManager TradeCopyService.

Lemma copy_trade_once response trade_info sent :
  (copy_trade response trade_info sent).1
    = sent ++ [(order_id trade_info, order_params trade_info)].
Proof. by destruct response. Qed.

Lemma copy_trade_refused response trade_info sent :
  refused response → success (copy_trade response trade_info sent).2 = false.
Proof. by destruct response. Qed.

Lemma handle_new_trade_fresh env trade_info self :
  order_id trade_info ∉ processed_orders self →
  save_raises env = false →
  handle_new_trade env trade_info self
  = {| processed_orders := processed_orders self ∪ {[order_id trade_info]};
       db := {| DatabaseManager.trades :=
                  DatabaseManager.trades (db self)
                  ++ [trade_data trade_info
                        (copy_trade (order_response env) trade_info (requests self)).2];
                DatabaseManager.positions := DatabaseManager.positions (db self) |};
       requests := requests self ++ [(order_id trade_info, order_params trade_info)] |}.
Proof.
  intros Hfresh Hsave. unfold handle_new_trade.
  rewrite bool_decide_eq_false_2 by done.
  unfold DatabaseManager.save_trade. rewrite Hsave, copy_trade_once. done.
Qed.

(** C4, as the code has it.  A failure of the order request is not
    retried, on either path.  On the stream path [handle_new_trade] sends
    one request and records the event as failed, with the exception's
    text after "Unexpected error: " (or, for an exception of the venue's
    client, its message after "Binance API Error: ").  On the polling
    path [copy_trade] sends one request, gives [False] and leaves the
    database as it was. *)
Theorem order_failure_not_retried (response : OrderResponse) :
  refused response →
  (∀ save trade_info self,
     order_id trade_info ∉ processed_orders self →
     let self' := handle_new_trade {| order_response := response; save_raises := save |}
                    trade_info self in
     requests self' = requests self ++ [(order_id trade_info, order_params trade_info)]
     ∧ (save = false →
        ∃ record, DatabaseManager.trades (db self')
                    = DatabaseManager.trades (db self) ++ [record]
          ∧ DatabaseManager.status record = "failed"%string
          ∧ DatabaseManager.tr_order_id record = None
          ∧ DatabaseManager.error_message record
            = match response with
              | OtherException str => Some ("Unexpected error: " ++ str)%string
              | BinanceAPIException message => Some ("Binance API Error: " ++ message)%string
              | OrderAccepted _ => None
              end))
  ∧ (∀ mark trade w,
       BinanceTradeCopier.copy_trade
         {| BinanceTradeCopier.order_response := response;
            BinanceTradeCopier.mark_raises := mark |} trade w
       = ({| BinanceTradeCopier.db := BinanceTradeCopier.db w;
             BinanceTradeCopier.requests :=
               BinanceTradeCopier.requests w
               ++ [(TradeDatabase.id trade, BinanceTradeCopier.order_params trade)] |},
          false)).
Proof.
  intros Hrefused. split.
  - intros save trade_info self Hfresh self'. subst self'. split.
    + unfold handle_new_trade. rewrite bool_decide_eq_false_2 by done.
      rewrite copy_trade_once. simpl.
      by destruct (DatabaseManager.save_trade _ _ _).
    + intros ->. rewrite handle_new_trade_fresh by done. simpl.
      eexists. split; [reflexivity|]. by destruct response.
  - intros mark trade w. unfold BinanceTradeCopier.copy_trade. simpl.
    by destruct response.
Qed.

Lemma order_failure_not_retried_witness :
  (∀ save trade_info self,
     order_id trade_info ∉ processed_orders self →
     let self' := handle_new_trade
                    {| order_response := OtherException "Read timed out.";
                       save_raises := save |} trade_info self in
     requests self' = requests self ++ [(order_id trade_info, order_params trade_info)]
     ∧ (save = false →
        ∃ record, DatabaseManager.trades (db self')
                    = DatabaseManager.trades (db self) ++ [record]
          ∧ DatabaseManager.status record = "failed"%string
          ∧ DatabaseManager.tr_order_id record = None
          ∧ DatabaseManager.error_message record
            = Some ("Unexpected error: " ++ "Read timed out.")%string))
  ∧ (∀ mark trade w,
       BinanceTradeCopier.copy_trade
         {| BinanceTradeCopier.order_response := OtherException "Read timed out.";
            BinanceTradeCopier.mark_raises := mark |} trade w
       = ({| BinanceTradeCopier.db := BinanceTradeCopier.db w;
             BinanceTradeCopier.requests :=
               BinanceTradeCopier.requests w
               ++ [(TradeDatabase.id trade, BinanceTradeCopier.order_params trade)] |},
          false)).
Proof.
  apply (order_failure_not_retried (OtherException "Read timed out.")).
  exact I.
Defined.

(** C4, as the spec words it, fails: when the order request times out the
    event is recorded as failed after the one request; no second request
    is sent. *)
Lemma timeout_not_retried :
  let self' := handle_new_trade Examples.times_out Examples.filled init in
  length (requests self') = 1%nat
  ∧ DatabaseManager.status <$> DatabaseManager.trades (db self') = ["failed"%string]
  ∧ ¬ Spec.retried (length (requests init)) (length (requests self')).
Proof.
  split; [reflexivity|]. split; [reflexivity|].
  unfold Spec.retried. intros Hle. vm_compute in Hle. lia.
Qed.

(** C5, as the code has it.  When the venue rejects the order, the event
    gets one record, written once with status "failed" and no order id
    (it is never stored as pending); its error detail is the rejection
    reason after the prefix "Binance API Error: "; one request has been
    sent and none follows.  The record has no attempt count. *)
Theorem rejection_recorded_failed (message : string)
    (trade_info : TradeInfo) (self : TradeCopyService.t) :
  order_id trade_info ∉ processed_orders self →
  let self' := handle_new_trade
                 {| order_response := BinanceAPIException message; save_raises := false |}
                 trade_info self in
  requests self' = requests self ++ [(order_id trade_info, order_params trade_info)]
  ∧ ∃ record, DatabaseManager.trades (db self') = DatabaseManager.trades (db self) ++ [record]
      ∧ DatabaseManager.status record = "failed"%string
      ∧ DatabaseManager.tr_order_id record = None
      ∧ DatabaseManager.source_order_id record = order_id trade_info
      ∧ DatabaseManager.error_message record
        = Some ("Binance API Error: " ++ message)%string.
Proof.
  intros Hfresh self'. subst self'.
  rewrite handle_new_trade_fresh by done. simpl.
  split; [done|]. eexists. split; [reflexivity|]. done.
Qed.

Lemma rejection_recorded_failed_witness :
  let self' := handle_new_trade Examples.rejects Examples.filled init in
  requests self' = requests init ++ [(order_id Examples.filled, order_params Examples.filled)]
  ∧ ∃ record, DatabaseManager.trades (db self') = DatabaseManager.trades (db init) ++ [record]
      ∧ DatabaseManager.status record = "failed"%string
      ∧ DatabaseManager.tr_order_id record = None
      ∧ DatabaseManager.source_order_id record = order_id Examples.filled
      ∧ DatabaseManager.error_message record
        = Some ("Binance API Error: " ++ "insufficient margin")%string.
Proof.
  apply (rejection_recorded_failed "insufficient margin" Examples.filled init).
  vm_compute. set_solver.
Defined.

(** C5, as the spec words it, fails: for the rejection "insufficient
    margin" the error detail that is stored is "Binance API Error:
    insufficient margin", not the reason alone. *)
Lemma rejection_reason_not_verbatim :
  DatabaseManager.error_message
    <$> DatabaseManager.trades (db (handle_new_trade Examples.rejects Examples.filled init))
  = [Some "Binance API Error: insufficient margin"%string]
  ∧ DatabaseManager.error_message
      <$> DatabaseManager.trades (db (handle_new_trade Examples.rejects Examples.filled init))
    ≠ [Some "insufficient margin"%string].
Proof. split; [reflexivity | discriminate]. Qed.

End Replication.

(** ** Polling: admission *)

Section Admission.
Import TradeDatabase BinanceTradeMonitor.

Implicit Types db : TradeDatabase.t.
Implicit Types trades new_trades : list Trade.
Implicit Types faults : list StoreFault.

Local Arguments save_trade : simpl never.

Lemma save_trade_settings raises trade db :
  settings (save_trade raises trade db).1 = settings db.
Proof.
  unfold save_trade. destruct raises; [done|].
  by destruct (processed_trades db !! id trade).
Qed.

Lemma save_trade_keeps raises trade db i row :
  processed_trades db !! i = Some row →
  processed_trades (save_trade raises trade db).1 !! i = Some row.
Proof.
  intros Hrow. unfold save_trade. destruct raises; [done|].
  destruct (processed_trades db !! id trade) eqn:Hid; [done|]. simpl.
  rewrite lookup_insert_ne; [done | congruence].
Qed.

Lemma save_trade_other raises trade db i :
  i ≠ id trade →
  processed_trades (save_trade raises trade db).1 !! i = processed_trades db !! i.
Proof.
  intros Hne. unfold save_trade. destruct raises; [done|].
  destruct (processed_trades db !! id trade) eqn:Hid; [done|]. simpl.
  by rewrite lookup_insert_ne.
Qed.

Lemma save_trade_recorded trade db :
  is_Some (processed_trades (save_trade false trade db).1 !! id trade).
Proof.
  unfold save_trade.
  destruct (processed_trades db !! id trade) eqn:Hid; simpl.
  - rewrite Hid. by eexists.
  - rewrite lookup_insert_eq. by eexists.
Qed.

Lemma save_trade_failed trade db : (save_trade true trade db).1 = db.
Proof. done. Qed.

Lemma is_trade_processed_spec trade_id db :
  is_trade_processed false trade_id db
  = Some (bool_decide (is_Some (processed_trades db !! trade_id))).
Proof. done. Qed.

(** The loop never touches [settings] and never removes a row. *)
Lemma filter_new_settings trades : ∀ faults new_trades db,
  settings (filter_new faults trades new_trades db).1 = settings db.
Proof.
  induction trades as [|trade rest IH]; intros faults new_trades db; simpl; [done|].
  destruct (is_trade_processed _ _ _) as [[|]|]; [by apply IH | | done].
  rewrite IH. apply save_trade_settings.
Qed.

Lemma filter_new_keeps trades : ∀ faults new_trades db i row,
  processed_trades db !! i = Some row →
  processed_trades (filter_new faults trades new_trades db).1 !! i = Some row.
Proof.
  induction trades as [|trade rest IH]; intros faults new_trades db i row Hrow; simpl; [done|].
  destruct (is_trade_processed _ _ _) as [[|]|]; [by apply IH | | done].
  apply IH. by apply save_trade_keeps.
Qed.

(** What the loop returns extends [new_trades] by trades of the batch
    that had no row when the poll began. *)
Lemma filter_new_fresh trades : ∀ faults new_trades db result,
  (filter_new faults trades new_trades db).2 = Some result →
  ∃ added, result = new_trades ++ added
    ∧ ∀ trade, trade ∈ added → trade ∈ trades ∧ processed_trades db !! id trade = None.
Proof.
  induction trades as [|trade rest IH]; intros faults new_trades db result Hrun; simpl in Hrun.
  - exists []. inversion Hrun. split; [by rewrite app_nil_r | intros ? []%elem_of_nil].
  - unfold is_trade_processed in Hrun.
    destruct (lookup_raises (hd healthy faults)); [done|].
    destruct (bool_decide _) eqn:Hseen.
    + destruct (IH _ _ _ _ Hrun) as (added & -> & Hadded).
      exists added. split; [done|]. intros t Ht.
      destruct (Hadded t Ht). split; [by apply list_elem_of_further | done].
    + apply bool_decide_eq_false in Hseen.
      assert (processed_trades db !! id trade = None) as Hnone
        by (by apply eq_None_not_Some).
      destruct (IH _ _ _ _ Hrun) as (added & -> & Hadded).
      exists (trade :: added). split; [by rewrite <- app_assoc|].
      intros t [->|Ht]%elem_of_cons; [split; [apply list_elem_of_here | done]|].
      destruct (Hadded t Ht) as [Hin Hfresh]. split; [by apply list_elem_of_further|].
      destruct (processed_trades db !! id t) as [row|] eqn:Hrow; [|done].
      by rewrite (save_trade_keeps _ _ _ _ _ Hrow) in Hfresh.
Qed.

(** With a store that works, what is added has pairwise distinct ids and
    every trade of the batch has a row afterwards. *)
Lemma filter_new_healthy trades : ∀ faults new_trades db,
  Forall (λ f, f = healthy) faults →
  ∃ added, (filter_new faults trades new_trades db).2 = Some (new_trades ++ added)
    ∧ NoDup (id <$> added)
    ∧ ∀ trade, trade ∈ trades →
        is_Some (processed_trades (filter_new faults trades new_trades db).1 !! id trade).
Proof.
  induction trades as [|trade rest IH]; intros faults new_trades db Hok; simpl.
  - exists []. rewrite app_nil_r. repeat split; [constructor | intros ? []%elem_of_nil].
  - assert (hd healthy faults = healthy) as ->
      by (destruct Hok; [done | by subst]).
    assert (Forall (λ f, f = healthy) (tl faults)) as Hok' by (by destruct Hok).
    simpl. destruct (bool_decide _) eqn:Hseen.
    + apply bool_decide_eq_true in Hseen as [row Hrow].
      destruct (IH (tl faults) new_trades db Hok') as (added & Hrun & Hnodup & Hrec).
      exists added. repeat split; try done.
      intros t [->|Ht]%elem_of_cons; [|by apply Hrec].
      eexists. by apply filter_new_keeps.
    + destruct (IH (tl faults) (new_trades ++ [trade]) (save_trade false trade db).1 Hok')
        as (added & Hrun & Hnodup & Hrec).
      destruct (save_trade_recorded trade db) as [row Hrow].
      exists (trade :: added). rewrite Hrun, <- app_assoc. split; [done|]. split.
      * rewrite fmap_cons. apply NoDup_cons. split; [|done].
        intros (t & Hid & Ht)%list_elem_of_fmap.
        destruct (filter_new_fresh _ _ _ _ _ Hrun) as (added' & Heq & Hfresh).
        apply app_inv_head in Heq. subst added'.
        destruct (Hfresh t Ht) as [_ Hnone]. rewrite <- Hid in Hnone. congruence.
      * intros t [->|Ht]%elem_of_cons; [|by apply Hrec].
        eexists. by apply filter_new_keeps.
Qed.

(** A save that fails does not keep a trade from being returned: when no
    lookup raises, every id of the batch that had no row is returned. *)
Lemma filter_new_fail_open trades : ∀ faults new_trades db,
  Forall (λ f, lookup_raises f = false) faults →
  ∃ added, (filter_new faults trades new_trades db).2 = Some (new_trades ++ added)
    ∧ ∀ trade, trade ∈ trades → processed_trades db !! id trade = None →
        id trade ∈ id <$> added.
Proof.
  induction trades as [|trade rest IH]; intros faults new_trades db Hok; simpl.
  - exists []. rewrite app_nil_r. split; [done | intros ? []%elem_of_nil].
  - assert (lookup_raises (hd healthy faults) = false) as Hhd by (by destruct Hok).
    assert (Forall (λ f, lookup_raises f = false) (tl faults)) as Hok' by (by destruct Hok).
    unfold is_trade_processed. rewrite Hhd.
    destruct (bool_decide _) eqn:Hseen.
    + apply bool_decide_eq_true in Hseen as [row Hrow].
      destruct (IH (tl faults) new_trades db Hok') as (added & Hrun & Hall).
      exists added. split; [done|].
      intros t [->|Ht]%elem_of_cons Hnone; [congruence | by apply Hall].
    + destruct (IH (tl faults) (new_trades ++ [trade])
                  (save_trade (save_raises (hd healthy faults)) trade db).1 Hok')
        as (added & Hrun & Hall).
      exists (trade :: added). rewrite Hrun, <- app_assoc. split; [done|].
      intros t Ht Hnone. rewrite fmap_cons.
      destruct (decide (id t = id trade)) as [->|Hne]; [apply list_elem_of_here|].
      apply list_elem_of_further.
      apply elem_of_cons in Ht as [->|Ht]; [done|].
      apply Hall; [done|]. by rewrite save_trade_other.
Qed.

(** A lookup that raises ends the loop with nothing returned. *)
Lemma filter_new_fail_closed trades : ∀ faults new_trades db (k : nat) trade f,
  trades !! k = Some trade → faults !! k = Some f → lookup_raises f = true →
  (filter_new faults trades new_trades db).2 = None.
Proof.
  induction trades as [|trade0 rest IH]; intros faults new_trades db k trade f Ht Hf Hraise;
    [done|].
  destruct faults as [|f0 faults]; [done|].
  destruct k as [|k]; simpl in *.
  - inversion Hf; subst. unfold is_trade_processed. by rewrite Hraise.
  - destruct (is_trade_processed _ _ _) as [[|]|]; [by eapply IH | by eapply IH | done].
Qed.

End Admission.

(** ** Polling: one poll, one cycle, a run of cycles *)

Section Polling.
Import TradeDatabase BinanceTradeMonitor.

Implicit Types db : TradeDatabase.t.
Implicit Types self : BinanceTradeMonitor.t.

(** What a poll may do to the database and what it may return, whatever
    the store does. *)
Lemma get_new_trades_general client faults symbol self db :
  settings (get_new_trades client faults symbol self db).1 = settings db
  ∧ (∀ i row, processed_trades db !! i = Some row →
       processed_trades (get_new_trades client faults symbol self db).1 !! i = Some row)
  ∧ (∀ trade, trade ∈ (get_new_trades client faults symbol self db).2 →
       processed_trades db !! id trade = None
       ∧ ∃ trades, client symbol (start_time self) 1000%nat = Returns trades
           ∧ trade ∈ trades).
Proof.
  unfold get_new_trades.
  destruct (client symbol (start_time self) 1000%nat) as [trades|msg];
    [|simpl; split; [done|]; split; [done|]; by intros ? ?%elem_of_nil].
  pose proof (filter_new_settings trades faults [] db) as Hset.
  pose proof (filter_new_keeps trades faults [] db) as Hkeep.
  pose proof (filter_new_fresh trades faults [] db) as Hfresh.
  destruct (filter_new faults trades [] db) as [db' [new_trades|]]; simpl in *.
  - split; [done|]. split; [done|]. intros trade Hin.
    destruct (Hfresh _ eq_refl) as (added & -> & Hadded).
    split; [by apply Hadded|]. exists trades. split; [done|]. by apply Hadded.
  - split; [done|]. split; [done|]. by intros ? ?%elem_of_nil.
Qed.

Lemma get_new_trades_healthy client faults symbol self db :
  Forall (λ f, f = healthy) faults →
  NoDup (id <$> (get_new_trades client faults symbol self db).2)
  ∧ ∀ trade, trade ∈ (get_new_trades client faults symbol self db).2 →
      is_Some (processed_trades (get_new_trades client faults symbol self db).1 !! id trade).
Proof.
  intros Hok. unfold get_new_trades.
  destruct (client symbol (start_time self) 1000%nat) as [trades|msg];
    [|split; [constructor | intros ? []%elem_of_nil]].
  destruct (filter_new_healthy trades faults [] db Hok) as (added & Hrun & Hnodup & Hrec).
  pose proof (filter_new_fresh trades faults [] db) as Hfresh.
  destruct (filter_new faults trades [] db) as [db' [new_trades|]]; simpl in *; [|done].
  inversion Hrun; subst. split; [done|].
  intros trade Hin. apply Hrec.
  destruct (Hfresh _ eq_refl) as (added' & -> & Hadded). by apply Hadded.
Qed.

Lemma poll_symbols_general client faults syms : ∀ self all_trades db,
  settings (poll_symbols client faults syms self all_trades db).1 = settings db
  ∧ (∀ i row, processed_trades db !! i = Some row →
       processed_trades (poll_symbols client faults syms self all_trades db).1 !! i
       = Some row)
  ∧ ∃ added, (poll_symbols client faults syms self all_trades db).2 = all_trades ++ added
      ∧ ∀ trade, trade ∈ added →
          processed_trades db !! id trade = None
          ∧ ∃ symbol trades, client symbol (start_time self) 1000%nat = Returns trades
              ∧ trade ∈ trades.
Proof.
  induction syms as [|symbol rest IH]; intros self all_trades db; simpl.
  - repeat split; try done. exists []. rewrite app_nil_r.
    split; [done | intros ? []%elem_of_nil].
  - destruct (get_new_trades_general client (faults symbol) symbol self db)
      as (Hset & Hkeep & Hnew).
    destruct (IH self (all_trades ++ (get_new_trades client (faults symbol) symbol self db).2)
                (get_new_trades client (faults symbol) symbol self db).1)
      as (Hset' & Hkeep' & added & Hrun & Hadded).
    split; [by rewrite Hset'|]. split; [by intros; apply Hkeep', Hkeep|].
    exists ((get_new_trades client (faults symbol) symbol self db).2 ++ added).
    split; [by rewrite Hrun, <- app_assoc|].
    intros trade [Hin|Hin]%elem_of_app.
    + destruct (Hnew trade Hin) as (Hnone & trades & ? & ?). split; [done|]. eauto.
    + destruct (Hadded trade Hin) as (Hnone & Hsrc). split; [|done].
      destruct (processed_trades db !! id trade) as [row|] eqn:Hrow; [|done].
      by rewrite (Hkeep _ _ Hrow) in Hnone.
Qed.

Lemma poll_symbols_healthy client faults syms : ∀ self all_trades db,
  (∀ symbol, Forall (λ f, f = healthy) (faults symbol)) →
  ∃ added, (poll_symbols client faults syms self all_trades db).2 = all_trades ++ added
    ∧ NoDup (id <$> added)
    ∧ ∀ trade, trade ∈ added →
        is_Some (processed_trades (poll_symbols client faults syms self all_trades db).1
                   !! id trade).
Proof.
  induction syms as [|symbol rest IH]; intros self all_trades db Hok; simpl.
  - exists []. rewrite app_nil_r. repeat split; [constructor | intros ? []%elem_of_nil].
  - destruct (get_new_trades_healthy client (faults symbol) symbol self db (Hok symbol))
      as (Hnodup & Hrec).
    set (r := get_new_trades client (faults symbol) symbol self db) in *.
    destruct (IH self (all_trades ++ r.2) r.1 Hok) as (added & Hrun & Hnodup' & Hrec').
    destruct (poll_symbols_general client faults rest self (all_trades ++ r.2) r.1)
      as (_ & Hkeep & added' & Hrun' & Hfresh).
    rewrite Hrun in Hrun'. apply app_inv_head in Hrun'. subst added'.
    exists (r.2 ++ added). split; [by rewrite Hrun, <- app_assoc|]. split.
    + rewrite fmap_app. apply NoDup_app. split; [done|]. split; [|done].
      intros i (t & -> & Ht)%list_elem_of_fmap (t' & Hid & Ht')%list_elem_of_fmap.
      destruct (Hrec t Ht) as [row Hrow].
      destruct (Hfresh t' Ht') as [Hnone _]. rewrite <- Hid in Hnone. congruence.
    + intros trade [Hin|Hin]%elem_of_app; [|by apply Hrec'].
      destruct (Hrec trade Hin) as [row Hrow]. eexists. by apply Hkeep.
Qed.

End Polling.

(** ** Polling: the cycle of the service *)

Section Service.
Import TradeDatabase BinanceTradeCopier TradeCopierService.

Local Arguments BinanceTradeMonitor.get_all_symbols_trades : simpl never.

Lemma copy_trade_effect env trade w :
  requests (copy_trade env trade w).1 = requests w ++ [(id trade, order_params trade)]
  ∧ settings (db (copy_trade env trade w).1) = settings (db w)
  ∧ ∀ i, is_Some (processed_trades (db (copy_trade env trade w).1) !! i)
         ↔ is_Some (processed_trades (db w) !! i).
Proof.
  unfold copy_trade, mark_trade_copied.
  destruct (order_response env); [|done..].
  destruct (mark_raises env); [done|]. simpl.
  split; [done|]. split; [done|]. intros i. apply lookup_alter_is_Some.
Qed.

Lemma copy_trades_effect envs trades : ∀ w copied_count,
  requests (copy_trades envs trades w copied_count).1
    = requests w ++ ((λ trade, (id trade, order_params trade)) <$> trades)
  ∧ settings (db (copy_trades envs trades w copied_count).1) = settings (db w)
  ∧ ∀ i, is_Some (processed_trades (db (copy_trades envs trades w copied_count).1) !! i)
         ↔ is_Some (processed_trades (db w) !! i).
Proof.
  revert envs. induction trades as [|trade rest IH]; intros envs w copied_count; simpl.
  - by rewrite app_nil_r.
  - destruct (copy_trade_effect (hd quiet envs) trade w) as (Hreq & Hset & Hkeys).
    destruct (IH (tl envs) (copy_trade (hd quiet envs) trade w).1
                (if (copy_trade (hd quiet envs) trade w).2
                 then S copied_count else copied_count))
      as (Hreq' & Hset' & Hkeys').
    rewrite Hreq', Hreq, Hset', Hset, <- app_assoc. split; [done|]. split; [done|].
    intros i. by rewrite Hkeys', Hkeys.
Qed.

(** The requests of a cycle are those for the trades the poll returned. *)
Lemma cycle_requests env self :
  requests (world (_monitoring_cycle env self))
  = requests (world self)
    ++ ((λ trade, (id trade, order_params trade))
         <$> (BinanceTradeMonitor.get_all_symbols_trades (source env) (store_faults env)
                (monitor self) (db (world self))).2).
Proof.
  unfold _monitoring_cycle.
  destruct (BinanceTradeMonitor.get_all_symbols_trades _ _ _ _).2 as [|trade rest] eqn:Hnew.
  - simpl. by rewrite app_nil_r.
  - cbn [world]. by destruct (copy_trades_effect (copy_envs env) (trade :: rest)
      {| db := (BinanceTradeMonitor.get_all_symbols_trades (source env) (store_faults env)
                  (monitor self) (db (world self))).1;
         requests := requests (world self) |} 0) as (-> & _).
Qed.

Lemma cycle_general env self :
  monitor (_monitoring_cycle env self) = monitor self
  ∧ settings (db (world (_monitoring_cycle env self))) = settings (db (world self))
  ∧ (∀ i, is_Some (processed_trades (db (world self)) !! i) →
       is_Some (processed_trades (db (world (_monitoring_cycle env self))) !! i))
  ∧ ∃ sent, requests (world (_monitoring_cycle env self)) = requests (world self) ++ sent
      ∧ ∀ i, i ∈ sent.*1 →
          processed_trades (db (world self)) !! i = None
          ∧ ∃ symbol trades trade,
              source env symbol (BinanceTradeMonitor.start_time (monitor self)) 1000%nat
                = Returns trades
              ∧ trade ∈ trades ∧ id trade = i.
Proof.
  pose proof (cycle_requests env self) as Hreq.
  destruct (poll_symbols_general (source env) (store_faults env)
              BinanceTradeMonitor.symbols (monitor self) [] (db (world self)))
    as (Hset & Hkeep & added & Hrun & Hadded).
  fold (BinanceTradeMonitor.get_all_symbols_trades (source env) (store_faults env)
          (monitor self) (db (world self))) in Hset, Hkeep, Hrun.
  rewrite app_nil_l in Hrun.
  assert (monitor (_monitoring_cycle env self) = monitor self
          ∧ settings (db (world (_monitoring_cycle env self))) = settings (db (world self))
          ∧ ∀ i, is_Some (processed_trades (db (world self)) !! i) →
                 is_Some (processed_trades (db (world (_monitoring_cycle env self))) !! i))
    as (Hmon & Hset' & Hkeep').
  { unfold _monitoring_cycle.
    destruct (BinanceTradeMonitor.get_all_symbols_trades _ _ _ _).2 as [|trade rest].
    - simpl. split; [done|]. split; [done|].
      intros i [row Hrow]. eexists. by apply Hkeep.
    - cbn [monitor world].
      destruct (copy_trades_effect (copy_envs env) (trade :: rest)
        {| db := (BinanceTradeMonitor.get_all_symbols_trades (source env) (store_faults env)
                    (monitor self) (db (world self))).1;
           requests := requests (world self) |} 0) as (_ & Hs & Hk).
      split; [done|]. split; [by rewrite Hs|].
      intros i [row Hrow]. apply Hk. simpl. eexists. by apply Hkeep. }
  split; [done|]. split; [done|]. split; [done|].
  eexists. split; [exact Hreq|].
  intros i (sent & -> & (trade & -> & Hin)%list_elem_of_fmap)%list_elem_of_fmap. simpl.
  rewrite Hrun in Hin.
  destruct (Hadded trade Hin) as (Hnone & symbol & trades & ? & ?).
  split; [done|]. by exists symbol, trades, trade.
Qed.

Lemma cycle_healthy env self :
  store_healthy env →
  ∃ sent, requests (world (_monitoring_cycle env self)) = requests (world self) ++ sent
    ∧ NoDup sent.*1
    ∧ ∀ i, i ∈ sent.*1 →
        is_Some (processed_trades (db (world (_monitoring_cycle env self))) !! i).
Proof.
  intros Hok.
  pose proof (cycle_requests env self) as Hreq.
  destruct (poll_symbols_healthy (source env) (store_faults env)
              BinanceTradeMonitor.symbols (monitor self) [] (db (world self)) Hok)
    as (added & Hrun & Hnodup & Hrec).
  fold (BinanceTradeMonitor.get_all_symbols_trades (source env) (store_faults env)
          (monitor self) (db (world self))) in Hrun, Hrec.
  rewrite app_nil_l in Hrun.
  eexists. split; [exact Hreq|].
  rewrite <- list_fmap_compose. rewrite Hrun.
  split; [exact Hnodup|].
  intros i (trade & -> & Hin)%list_elem_of_fmap. simpl.
  destruct (Hrec trade Hin) as [row Hrow].
  unfold _monitoring_cycle. rewrite Hrun.
  destruct added as [|trade0 rest]; [by apply elem_of_nil in Hin|].
  cbn [world].
  destruct (copy_trades_effect (copy_envs env) (trade0 :: rest)
    {| db := (BinanceTradeMonitor.get_all_symbols_trades (source env) (store_faults env)
                (monitor self) (db (world self))).1;
       requests := requests (world self) |} 0) as (_ & _ & Hk).
  apply Hk. simpl. by eexists.
Qed.

(** A run of cycles, whatever the store does: the monitor and the
    settings are as before, no row is lost, and no request is sent for an
    id that had a row when the run began. *)
Lemma run_general envs : ∀ self,
  monitor (run envs self) = monitor self
  ∧ settings (db (world (run envs self))) = settings (db (world self))
  ∧ (∀ i, is_Some (processed_trades (db (world self)) !! i) →
       is_Some (processed_trades (db (world (run envs self))) !! i))
  ∧ ∃ sent, requests (world (run envs self)) = requests (world self) ++ sent
      ∧ ∀ i, i ∈ sent.*1 → processed_trades (db (world self)) !! i = None.
Proof.
  induction envs as [|env rest IH]; intros self.
  - simpl. repeat split; try done. exists []. rewrite app_nil_r.
    split; [done | intros ? []%elem_of_nil].
  - change (run (env :: rest) self) with (run rest (_monitoring_cycle env self)).
    destruct (cycle_general env self) as (Hmon & Hset & Hkeep & sent & Hreq & Hsent).
    destruct (IH (_monitoring_cycle env self)) as (Hmon' & Hset' & Hkeep' & sent' & Hreq' & Hsent').
    split; [congruence|]. split; [congruence|]. split; [by intros; apply Hkeep', Hkeep|].
    exists (sent ++ sent'). split; [by rewrite Hreq', Hreq, <- app_assoc|].
    rewrite fmap_app. intros i [Hin|Hin]%elem_of_app; [by apply Hsent|].
    destruct (processed_trades (db (world self)) !! i) as [row|] eqn:Hrow; [|done].
    destruct (Hkeep i (mk_is_Some _ _ Hrow)) as [row' Hrow'].
    rewrite (Hsent' i Hin) in Hrow'. done.
Qed.

(** A run of cycles with a store that works: the requests it sends have
    pairwise distinct ids. *)
Lemma run_healthy envs : ∀ self,
  Forall store_healthy envs →
  ∃ sent, requests (world (run envs self)) = requests (world self) ++ sent
    ∧ NoDup sent.*1
    ∧ ∀ i, i ∈ sent.*1 → is_Some (processed_trades (db (world (run envs self))) !! i).
Proof.
  induction envs as [|env rest IH]; intros self Hok.
  - exists []. simpl. rewrite app_nil_r. repeat split; [constructor | intros ? []%elem_of_nil].
  - apply Forall_cons in Hok as [Hhd Htl].
    change (run (env :: rest) self) with (run rest (_monitoring_cycle env self)).
    destruct (cycle_healthy env self Hhd) as (sent & Hreq & Hnodup & Hrec).
    destruct (IH (_monitoring_cycle env self) Htl) as (sent' & Hreq' & Hnodup' & Hrec').
    destruct (run_general rest (_monitoring_cycle env self))
      as (_ & _ & Hkeep & sent'' & Hreq'' & Hfresh).
    rewrite Hreq' in Hreq''. apply app_inv_head in Hreq''. subst sent''.
    exists (sent ++ sent'). split; [by rewrite Hreq', Hreq, <- app_assoc|].
    rewrite fmap_app. split.
    + apply NoDup_app. split; [done|]. split; [|done].
      intros i Hin Hin'. destruct (Hrec i Hin) as [row Hrow].
      rewrite (Hfresh i Hin') in Hrow. done.
    + intros i [Hin|Hin]%elem_of_app; [|by apply Hrec'].
      apply Hkeep. by apply Hrec.
Qed.

End Service.

(** ** The stream path: the in-memory set of order ids *)

Section Stream.
Import BinanceWebSocketManager TradeCopyService.

Lemma handle_new_trade_seen env trade_info self :
  order_id trade_info ∈ processed_orders self →
  handle_new_trade env trade_info self = self.
Proof. intros Hseen. unfold handle_new_trade. by rewrite bool_decide_eq_true_2. Qed.

Lemma handle_new_trade_new env trade_info self :
  order_id trade_info ∉ processed_orders self →
  requests (handle_new_trade env trade_info self)
    = requests self ++ [(order_id trade_info, order_params trade_info)]
  ∧ processed_orders (handle_new_trade env trade_info self)
    = processed_orders self ∪ {[order_id trade_info]}.
Proof.
  intros Hnew. unfold handle_new_trade. rewrite bool_decide_eq_false_2 by done.
  rewrite copy_trade_once. by destruct (DatabaseManager.save_trade _ _ _).
Qed.

Lemma deliver_distinct events : ∀ self,
  processed_orders self ⊆ processed_orders (deliver events self)
  ∧ ∃ sent, requests (deliver events self) = requests self ++ sent
      ∧ NoDup sent.*1
      ∧ ∀ o, o ∈ sent.*1 →
          (o ∉ processed_orders self) ∧ o ∈ processed_orders (deliver events self).
Proof.
  induction events as [|[env trade_info] rest IH]; intros self.
  - simpl. split; [done|]. exists []. rewrite app_nil_r.
    split; [done|]. split; [apply NoDup_nil_2|]. by intros o Hin%elem_of_nil.
  - change (deliver ((env, trade_info) :: rest) self)
      with (deliver rest (handle_new_trade env trade_info self)).
    destruct (IH (handle_new_trade env trade_info self)) as (Hsub & sent & Hreq & Hnodup & Hsent).
    destruct (decide (order_id trade_info ∈ processed_orders self)) as [Hseen|Hnew].
    + rewrite handle_new_trade_seen in * by done.
      split; [done|]. by exists sent.
    + destruct (handle_new_trade_new env trade_info self Hnew) as [Hreq1 Hset1].
      assert (processed_orders self ⊆ processed_orders (handle_new_trade env trade_info self))
        as Hsub1 by (rewrite Hset1; apply union_subseteq_l).
      assert (order_id trade_info ∈ processed_orders (handle_new_trade env trade_info self))
        as Hin1 by (rewrite Hset1; apply elem_of_union_r; by apply elem_of_singleton).
      split; [by etrans|].
      exists ((order_id trade_info, order_params trade_info) :: sent).
      split; [by rewrite Hreq, Hreq1, <- app_assoc|].
      rewrite fmap_cons. simpl. split.
      * apply NoDup_cons. split; [|done].
        intros Hin. by destruct (Hsent _ Hin) as [Hfresh _].
      * intros o [->|Hin]%elem_of_cons; [split; [done | by apply Hsub]|].
        destruct (Hsent _ Hin) as [Hfresh Hseen]. split; [|done].
        intros Ho. by apply Hfresh, Hsub1.
Qed.

End Stream.

(** ** The claims on admission and the cursor *)

Section PollingClaims.
Import TradeDatabase BinanceTradeCopier TradeCopierService.

Local Arguments BinanceTradeMonitor.get_all_symbols_trades : simpl never.

(** C1, as the code has it.  On each path taken alone a source id gets at
    most one order request.  Polling: over any run of cycles during which
    SQLite works, the requests sent carry pairwise distinct trade ids,
    none of which had a row when the run began, and each has a row at the
    end.  Stream: over any run of deliveries, whatever the environment
    does, the requests sent carry pairwise distinct order ids, none of
    which was in [processed_orders] before, and a delivery whose order id
    is in [processed_orders] changes nothing. *)
Theorem one_request_per_id_on_each_path (envs : list CycleEnv)
    (self : TradeCopierService.t)
    (events : list (TradeCopyService.Env * BinanceWebSocketManager.TradeInfo))
    (stream : TradeCopyService.t) :
  Forall store_healthy envs →
  (∃ sent, requests (world (run envs self)) = requests (world self) ++ sent
     ∧ NoDup sent.*1
     ∧ ∀ i, i ∈ sent.*1 →
         processed_trades (db (world self)) !! i = None
         ∧ is_Some (processed_trades (db (world (run envs self))) !! i))
  ∧ (∃ sent, TradeCopyService.requests (TradeCopyService.deliver events stream)
             = TradeCopyService.requests stream ++ sent
       ∧ NoDup sent.*1
       ∧ ∀ o, o ∈ sent.*1 → o ∉ TradeCopyService.processed_orders stream)
  ∧ (∀ env trade_info,
       BinanceWebSocketManager.order_id trade_info
         ∈ TradeCopyService.processed_orders (TradeCopyService.deliver events stream) →
       TradeCopyService.handle_new_trade env trade_info
         (TradeCopyService.deliver events stream)
       = TradeCopyService.deliver events stream).
Proof.
  intros Hok. split; [|split].
  - destruct (run_healthy envs self Hok) as (sent & Hreq & Hnodup & Hrec).
    destruct (run_general envs self) as (_ & _ & _ & sent' & Hreq' & Hfresh).
    rewrite Hreq in Hreq'. apply app_inv_head in Hreq'. subst sent'.
    exists sent. split; [done|]. split; [done|].
    intros i Hin. split; [by apply Hfresh | by apply Hrec].
  - destruct (deliver_distinct events stream) as (_ & sent & Hreq & Hnodup & Hsent).
    exists sent. split; [done|]. split; [done|]. intros o Hin. by apply Hsent.
  - intros env trade_info Hseen. by apply handle_new_trade_seen.
Qed.

Lemma one_request_per_id_on_each_path_witness :
  (∃ sent, requests (world (run [Examples.cycle [Examples.fill] [];
                                  Examples.cycle [Examples.fill] []] Examples.service0))
           = requests (world Examples.service0) ++ sent
     ∧ NoDup sent.*1
     ∧ ∀ i, i ∈ sent.*1 →
         processed_trades (db (world Examples.service0)) !! i = None
         ∧ is_Some (processed_trades
                      (db (world (run [Examples.cycle [Examples.fill] [];
                                       Examples.cycle [Examples.fill] []]
                                    Examples.service0))) !! i))
  ∧ (∃ sent, TradeCopyService.requests
               (TradeCopyService.deliver
                  [(Examples.accepts, Examples.filled); (Examples.accepts, Examples.filled)]
                  TradeCopyService.init)
             = TradeCopyService.requests TradeCopyService.init ++ sent
       ∧ NoDup sent.*1
       ∧ ∀ o, o ∈ sent.*1 → o ∉ TradeCopyService.processed_orders TradeCopyService.init)
  ∧ (∀ env trade_info,
       BinanceWebSocketManager.order_id trade_info
         ∈ TradeCopyService.processed_orders
             (TradeCopyService.deliver
                [(Examples.accepts, Examples.filled); (Examples.accepts, Examples.filled)]
                TradeCopyService.init) →
       TradeCopyService.handle_new_trade env trade_info
         (TradeCopyService.deliver
            [(Examples.accepts, Examples.filled); (Examples.accepts, Examples.filled)]
            TradeCopyService.init)
       = TradeCopyService.deliver
           [(Examples.accepts, Examples.filled); (Examples.accepts, Examples.filled)]
           TradeCopyService.init).
Proof.
  apply (one_request_per_id_on_each_path
           [Examples.cycle [Examples.fill] []; Examples.cycle [Examples.fill] []]
           Examples.service0
           [(Examples.accepts, Examples.filled); (Examples.accepts, Examples.filled)]
           TradeCopyService.init).
  repeat constructor.
Defined.

(** C1, as the spec words it, fails.  The stream service and the polling
    service keep separate records of what they have seen, so a fill that
    both deliver is sent to the target account by each of them: two
    requests with the same parameters.  And on the polling path alone, a
    fill whose save failed is returned again by the next poll and sent a
    second time. *)
Lemma same_fill_ordered_twice :
  (TradeCopyService.requests
     (TradeCopyService.handle_new_trade Examples.accepts Examples.filled
        TradeCopyService.init)).*2
    = [BinanceTradeCopier.order_params Examples.fill]
  ∧ (requests (world (_monitoring_cycle (Examples.cycle [Examples.fill] [])
                        Examples.service0))).*2
    = [BinanceTradeCopier.order_params Examples.fill]
  ∧ (requests (world (run [Examples.cycle [Examples.fill] [Examples.save_fails];
                           Examples.cycle [Examples.fill] []] Examples.service0))).*1
    = [1001; 1001].
Proof. repeat split; vm_compute; reflexivity. Qed.

End PollingClaims.

Section AdmissionClaims.
Import TradeDatabase BinanceTradeMonitor.

(** C6.  A trade id that has a row is never returned again, whatever the
    row says: [is_trade_processed] answers [True] for it, whether or not
    the row is marked copied, and over any run of cycles, whatever the
    venue and the store do, no request is sent for it and its row
    stays. *)
Theorem processed_never_retried (envs : list TradeCopierService.CycleEnv)
    (self : TradeCopierService.t) (i : Z) (row : Row) :
  processed_trades (BinanceTradeCopier.db (TradeCopierService.world self)) !! i = Some row →
  is_trade_processed false i (BinanceTradeCopier.db (TradeCopierService.world self))
    = Some true
  ∧ is_Some (processed_trades
               (BinanceTradeCopier.db
                  (TradeCopierService.world (TradeCopierService.run envs self))) !! i)
  ∧ ∃ sent, BinanceTradeCopier.requests
              (TradeCopierService.world (TradeCopierService.run envs self))
            = BinanceTradeCopier.requests (TradeCopierService.world self) ++ sent
      ∧ i ∉ sent.*1.
Proof.
  intros Hrow.
  destruct (run_general envs self) as (_ & _ & Hkeep & sent & Hreq & Hfresh).
  split; [|split].
  - unfold is_trade_processed. rewrite Hrow. by rewrite bool_decide_eq_true_2.
  - apply Hkeep. by eexists.
  - exists sent. split; [done|]. intros Hin. rewrite (Hfresh i Hin) in Hrow. done.
Qed.

Lemma processed_never_retried_witness :
  is_trade_processed false 1001
    (BinanceTradeCopier.db (TradeCopierService.world Examples.service_failed_earlier))
    = Some true
  ∧ is_Some (processed_trades
               (BinanceTradeCopier.db
                  (TradeCopierService.world
                     (TradeCopierService.run
                        [Examples.cycle [Examples.fill] []; Examples.cycle [Examples.fill] []]
                        Examples.service_failed_earlier))) !! 1001)
  ∧ ∃ sent, BinanceTradeCopier.requests
              (TradeCopierService.world
                 (TradeCopierService.run
                    [Examples.cycle [Examples.fill] []; Examples.cycle [Examples.fill] []]
                    Examples.service_failed_earlier))
            = BinanceTradeCopier.requests
                (TradeCopierService.world Examples.service_failed_earlier) ++ sent
      ∧ 1001 ∉ sent.*1.
Proof.
  apply (processed_never_retried
           [Examples.cycle [Examples.fill] []; Examples.cycle [Examples.fill] []]
           Examples.service_failed_earlier 1001 (row_of Examples.fill)).
  reflexivity.
Defined.

(** C2, as the code has it.  Admission does not wait for the save: when
    no lookup raises, every trade of the batch whose id had no row is
    returned by the poll (its id is among those returned), whether its
    save succeeds or fails.  What stops a batch is a lookup that raises:
    the poll then returns no trade at all. *)
Theorem admission_ignores_save (client : UMFutures) (faults : list StoreFault)
    (symbol : string) (self : BinanceTradeMonitor.t) (db : TradeDatabase.t)
    (trades : list Trade) :
  client symbol (start_time self) 1000%nat = Returns trades →
  (Forall (λ f, lookup_raises f = false) faults →
   ∀ trade, trade ∈ trades → processed_trades db !! id trade = None →
     id trade ∈ id <$> (get_new_trades client faults symbol self db).2)
  ∧ (∀ (k : nat) trade f,
       trades !! k = Some trade → faults !! k = Some f → lookup_raises f = true →
       (get_new_trades client faults symbol self db).2 = []).
Proof.
  intros Hclient. unfold get_new_trades. rewrite Hclient. split.
  - intros Hok trade Hin Hnone.
    destruct (filter_new_fail_open trades faults [] db Hok) as (added & Hrun & Hall).
    destruct (filter_new faults trades [] db) as [db' result]. simpl in Hrun. subst result.
    simpl. by apply Hall.
  - intros k trade f Ht Hf Hraise.
    pose proof (filter_new_fail_closed trades faults [] db k trade f Ht Hf Hraise) as Hrun.
    destruct (filter_new faults trades [] db) as [db' result]. simpl in Hrun. by subst result.
Qed.

Lemma admission_ignores_save_witness :
  (Forall (λ f, lookup_raises f = false) [Examples.save_fails] →
   ∀ trade, trade ∈ [Examples.fill] → processed_trades init_database !! id trade = None →
     id trade ∈ id <$> (get_new_trades (Examples.venue [Examples.fill]) [Examples.save_fails]
                          "BTCUSDT" {| start_time := Examples.first_start |}
                          init_database).2)
  ∧ (∀ (k : nat) trade f,
       [Examples.fill] !! k = Some trade → [Examples.save_fails] !! k = Some f →
       lookup_raises f = true →
       (get_new_trades (Examples.venue [Examples.fill]) [Examples.save_fails]
          "BTCUSDT" {| start_time := Examples.first_start |} init_database).2 = []).
Proof.
  apply (admission_ignores_save (Examples.venue [Examples.fill]) [Examples.save_fails]
           "BTCUSDT" {| start_time := Examples.first_start |} init_database [Examples.fill]).
  reflexivity.
Defined.

(** C2, as the spec words it, fails: the save of a new trade fails, the
    database has no row for it afterwards, and the trade is returned by
    the poll and sent to the target account all the same. *)
Lemma unsaved_trade_replicated :
  (get_new_trades (Examples.venue [Examples.fill]) [Examples.save_fails]
     "BTCUSDT" {| start_time := Examples.first_start |} init_database).2
    = [Examples.fill]
  ∧ processed_trades
      (get_new_trades (Examples.venue [Examples.fill]) [Examples.save_fails]
         "BTCUSDT" {| start_time := Examples.first_start |} init_database).1
    !! 1001 = None
  ∧ (BinanceTradeCopier.requests
       (TradeCopierService.world
          (TradeCopierService._monitoring_cycle
             (Examples.cycle [Examples.fill] [Examples.save_fails]) Examples.service0))).*1
    = [1001].
Proof. repeat split; vm_compute; reflexivity. Qed.

End AdmissionClaims.

Section CursorClaims.
Import TradeDatabase BinanceTradeMonitor.

Local Arguments get_all_symbols_trades : simpl never.

Lemma py_int_str (n : Z) : py_int (py_str n) = Some n.
Proof.
  unfold py_int, py_str. rewrite NilZero.isi.
  - simpl. by rewrite DecimalZ.of_to.
  - destruct n; [done | |done]. simpl. intros [= Hnil].
    by apply Unsigned.to_uint_nonnil in Hnil.
  - destruct n; [done | done |]. simpl. intros [= Hnil].
    by apply Unsigned.to_uint_nonnil in Hnil.
Qed.

Lemma py_str_truthy (n : Z) : truthy (py_str n) = true.
Proof.
  unfold py_str. destruct n as [|p|p]; [done | | done]. simpl.
  pose proof (Unsigned.to_uint_nonnil p) as Hnil.
  by destruct (Pos.to_uint p).
Qed.

(** A venue that answers from a history honours [startTime]. *)
Lemma venue_honours_start_time history symbol start limit trades :
  Examples.venue history symbol start limit = Returns trades →
  Forall (λ trade, start ≤ time trade) trades.
Proof.
  intros [= <-]. apply Forall_take, Forall_forall.
  by intros trade [[_ Hle] _]%list_elem_of_filter.
Qed.

(** C3, as the code has it.  Polling never writes the cursor.  There is
    one cursor, the setting "monitor_start_time", for all instruments; a
    poll leaves the settings and the monitor's [start_time] as they were,
    and so does any run of cycles, whatever was returned and forwarded.
    The cursor therefore never decreases and never moves past an event;
    it is not advanced to the greatest event time of a batch. *)
Theorem cursor_never_written (client : UMFutures) (faults : list StoreFault)
    (symbol : string) (monitor : BinanceTradeMonitor.t) (db : TradeDatabase.t)
    (envs : list TradeCopierService.CycleEnv) (self : TradeCopierService.t) :
  settings (get_new_trades client faults symbol monitor db).1 = settings db
  ∧ TradeCopierService.monitor (TradeCopierService.run envs self)
    = TradeCopierService.monitor self
  ∧ get_setting "monitor_start_time"
      (BinanceTradeCopier.db (TradeCopierService.world (TradeCopierService.run envs self)))
    = get_setting "monitor_start_time"
        (BinanceTradeCopier.db (TradeCopierService.world self)).
Proof.
  destruct (get_new_trades_general client faults symbol monitor db) as (Hset & _).
  destruct (run_general envs self) as (Hmon & Hset' & _).
  split; [done|]. split; [done|]. unfold get_setting. by rewrite Hset'.
Qed.

(** C3, as the spec words it, fails: a poll returns a trade later than
    the cursor and the trade is forwarded, yet the stored cursor and the
    monitor's [start_time] are what they were, not the trade's time. *)
Lemma cursor_not_advanced :
  (BinanceTradeCopier.requests
     (TradeCopierService.world
        (TradeCopierService.run [Examples.cycle [Examples.fill] []] Examples.service0))).*1
    = [1001]
  ∧ get_setting "monitor_start_time"
      (BinanceTradeCopier.db
         (TradeCopierService.world
            (TradeCopierService.run [Examples.cycle [Examples.fill] []] Examples.service0)))
    = Some "1700000000000"%string
  ∧ Some (py_str (Spec.advanced_cursor Examples.first_start [Examples.fill]))
    = Some "1700000000500"%string
  ∧ get_setting "monitor_start_time"
      (BinanceTradeCopier.db
         (TradeCopierService.world
            (TradeCopierService.run [Examples.cycle [Examples.fill] []] Examples.service0)))
    ≠ Some (py_str (Spec.advanced_cursor Examples.first_start [Examples.fill])).
Proof.
  split; [vm_compute; reflexivity|]. split; [vm_compute; reflexivity|].
  split; [vm_compute; reflexivity|]. vm_compute. discriminate.
Qed.

(** C9.  On a first run, with no cursor stored, the monitor takes the
    current time as its start time and stores it as the cursor (a later
    start reads the same value back); creating the monitor adds no trade
    row; and, the venue honouring [startTime], no trade older than the
    recorded start time is returned by the polls of a cycle, so none is
    forwarded. *)
Theorem first_run_no_backfill (now later : Z) (db : TradeDatabase.t)
    (client : UMFutures) (faults : string → list StoreFault) :
  get_setting "monitor_start_time" db = None →
  (∀ symbol start limit trades,
     client symbol start limit = Returns trades →
     Forall (λ trade, start ≤ time trade) trades) →
  ∃ self db0, BinanceTradeMonitor.init now db = Some (self, db0)
    ∧ start_time self = now
    ∧ get_setting "monitor_start_time" db0 = Some (py_str now)
    ∧ processed_trades db0 = processed_trades db
    ∧ BinanceTradeMonitor.init later db0 = Some (self, db0)
    ∧ ∀ trade, trade ∈ (get_all_symbols_trades client faults self db0).2 →
        now ≤ time trade.
Proof.
  intros Hnone Hvenue.
  exists {| start_time := now |}, (set_setting "monitor_start_time" (py_str now) db).
  split; [|split; [done|]; split; [|split; [done|]; split]].
  - unfold init, _get_start_time. by rewrite Hnone.
  - unfold get_setting, set_setting. simpl. apply lookup_insert_eq.
  - unfold init, _get_start_time, get_setting, set_setting. simpl.
    rewrite lookup_insert_eq, py_str_truthy, py_int_str. done.
  - intros trade Hin.
    destruct (poll_symbols_general client faults symbols {| start_time := now |} []
                (set_setting "monitor_start_time" (py_str now) db))
      as (_ & _ & added & Hrun & Hadded).
    fold (get_all_symbols_trades client faults {| start_time := now |}
            (set_setting "monitor_start_time" (py_str now) db)) in Hrun.
    rewrite Hrun, app_nil_l in Hin.
    destruct (Hadded trade Hin) as (_ & symbol & trades & Hclient & Hmem).
    pose proof (Hvenue _ _ _ _ Hclient) as Hall.
    rewrite Forall_forall in Hall. by apply Hall.
Qed.

Lemma first_run_no_backfill_witness :
  ∃ self db0, BinanceTradeMonitor.init Examples.first_start init_database = Some (self, db0)
    ∧ start_time self = Examples.first_start
    ∧ get_setting "monitor_start_time" db0 = Some (py_str Examples.first_start)
    ∧ processed_trades db0 = processed_trades init_database
    ∧ BinanceTradeMonitor.init 1700000060000 db0 = Some (self, db0)
    ∧ ∀ trade, trade ∈ (get_all_symbols_trades
                          (Examples.venue [Examples.old_fill; Examples.fill])
                          (λ _, []) self db0).2 →
        Examples.first_start ≤ time trade.
Proof.
  apply (first_run_no_backfill Examples.first_start 1700000060000 init_database
           (Examples.venue [Examples.old_fill; Examples.fill]) (λ _, [])).
  - reflexivity.
  - apply venue_honours_start_time.
Defined.

End CursorClaims.

(** * Further properties of the code *)

(** ** trade_monitor.py: the store *)

Section Store.
Import TradeDatabase.

Implicit Types db : TradeDatabase.t.

(** X1.  Saving and looking up.  After a save that did not raise, the
    trade's id is found by [is_trade_processed].  The save answers [True]
    exactly when the id had no row, and then the row holds the trade's
    columns with [copied] false.  A further save under the same id, with
    whatever columns, answers [False] and leaves the database as it is:
    the first row is kept. *)
Theorem save_then_lookup (trade again : Trade) (db : TradeDatabase.t) :
  id again = id trade →
  is_trade_processed false (id trade) (save_trade false trade db).1 = Some true
  ∧ ((save_trade false trade db).2 = true ↔ processed_trades db !! id trade = None)
  ∧ (processed_trades db !! id trade = None →
     processed_trades (save_trade false trade db).1 !! id trade = Some (row_of trade))
  ∧ save_trade false again (save_trade false trade db).1
    = ((save_trade false trade db).1, false).
Proof.
  intros Hid.
  destruct (save_trade_recorded trade db) as [row Hrow].
  split; [|split; [|split]].
  - unfold is_trade_processed. rewrite Hrow. by rewrite bool_decide_eq_true_2.
  - unfold save_trade. destruct (processed_trades db !! id trade); simpl; split; done.
  - intros Hnone. unfold save_trade. rewrite Hnone. simpl. apply lookup_insert_eq.
  - unfold save_trade at 1. by rewrite Hid, Hrow.
Qed.

Lemma save_then_lookup_witness :
  is_trade_processed false (id Examples.fill)
    (save_trade false Examples.fill init_database).1 = Some true
  ∧ ((save_trade false Examples.fill init_database).2 = true
     ↔ processed_trades init_database !! id Examples.fill = None)
  ∧ (processed_trades init_database !! id Examples.fill = None →
     processed_trades (save_trade false Examples.fill init_database).1 !! id Examples.fill
     = Some (row_of Examples.fill))
  ∧ save_trade false Examples.fill (save_trade false Examples.fill init_database).1
    = ((save_trade false Examples.fill init_database).1, false).
Proof.
  apply (save_then_lookup Examples.fill Examples.fill init_database). reflexivity.
Defined.

End Store.

Section Copier.
Import TradeDatabase BinanceTradeCopier.

(** X2.  What [copy_trade] answers and marks.  It answers [True] exactly
    when the order was accepted and the marking did not raise.  When it
    answers [True] the trade's row, if there is one, is the same row with
    [copied] true, and no row is made for a trade that has none; when it
    answers [False] the database is as before, also when the order had
    been accepted.  Rows of other trades are never changed. *)
Theorem copy_trade_marks (env : CopyEnv) (trade : Trade) (w : World) :
  ((copy_trade env trade w).2 = true
   ↔ (∃ orderId, order_response env = OrderAccepted orderId) ∧ mark_raises env = false)
  ∧ ((copy_trade env trade w).2 = true →
     processed_trades (db (copy_trade env trade w).1) !! id trade
     = set_copied <$> processed_trades (db w) !! id trade)
  ∧ ((copy_trade env trade w).2 = false → db (copy_trade env trade w).1 = db w)
  ∧ (∀ i, i ≠ id trade →
       processed_trades (db (copy_trade env trade w).1) !! i
       = processed_trades (db w) !! i).
Proof.
  unfold copy_trade, mark_trade_copied.
  destruct (order_response env) as [orderId|message|str]; simpl.
  - destruct (mark_raises env); simpl.
    + repeat split; try done. by intros [_ ?].
    + split; [split; [eauto | done]|]. split; [intros _; apply lookup_alter_eq|].
      split; [done|]. intros i Hne. by apply lookup_alter_ne.
  - repeat split; try done. by intros [[? ?] _].
  - repeat split; try done. by intros [[? ?] _].
Qed.

End Copier.

(** ** trade_monitor.py: the monitor *)

Section Monitor.
Import TradeDatabase BinanceTradeMonitor.

Implicit Types db : TradeDatabase.t.

(** X3.  A start after the first one resumes.  Whatever the database
    held, once a monitor has been created every later creation, at
    whatever time, gives the same [start_time] and leaves the database
    untouched. *)
Theorem restart_resumes (now later : Z) (db db0 : TradeDatabase.t)
    (self : BinanceTradeMonitor.t) :
  init now db = Some (self, db0) →
  init later db0 = Some (self, db0).
Proof.
  unfold init, _get_start_time, get_setting.
  destruct (settings db !! "monitor_start_time"%string) as [saved|] eqn:Hsaved.
  - destruct (truthy saved) eqn:Htruthy.
    + destruct (py_int saved) as [n|] eqn:Hparse; [|done]. simpl.
      intros [= <- <-]. by rewrite Hsaved, Htruthy, Hparse.
    + simpl. intros [= <- <-]. simpl.
      by rewrite lookup_insert_eq, py_str_truthy, py_int_str.
  - simpl. intros [= <- <-]. simpl.
    by rewrite lookup_insert_eq, py_str_truthy, py_int_str.
Qed.

Lemma restart_resumes_witness :
  init 1700000060000
    (set_setting "monitor_start_time" (py_str Examples.first_start) init_database)
  = Some ({| start_time := Examples.first_start |},
          set_setting "monitor_start_time" (py_str Examples.first_start) init_database).
Proof.
  apply (restart_resumes Examples.first_start 1700000060000 init_database). reflexivity.
Defined.


(** When every trade of a batch has a row and no lookup raises, the loop
    returns what it was given and writes nothing. *)
Lemma filter_new_all_seen trades : ∀ faults new_trades db,
  Forall (λ f, lookup_raises f = false) faults →
  (∀ trade, trade ∈ trades → is_Some (processed_trades db !! id trade)) →
  filter_new faults trades new_trades db = (db, Some new_trades).
Proof.
  induction trades as [|trade rest IH]; intros faults new_trades db Hok Hseen; [done|].
  assert (lookup_raises (hd healthy faults) = false) as Hhd by (by destruct Hok).
  assert (Forall (λ f, lookup_raises f = false) (tl faults)) as Hok' by (by destruct Hok).
  simpl. unfold is_trade_processed. rewrite Hhd.
  rewrite bool_decide_eq_true_2 by (apply Hseen, list_elem_of_here).
  apply IH; [done|]. intros t Ht. by apply Hseen, list_elem_of_further.
Qed.

(** X5.  Polling again returns nothing new.  After a poll during which
    SQLite worked, a second poll that gets the same answer from the venue
    returns no trade and leaves the database as the first poll left it,
    even if its saves would fail. *)
Theorem repoll_returns_nothing (client : UMFutures) (faults again : list StoreFault)
    (symbol : string) (self : BinanceTradeMonitor.t) (db : TradeDatabase.t) :
  Forall (λ f, f = healthy) faults →
  Forall (λ f, lookup_raises f = false) again →
  get_new_trades client again symbol self (get_new_trades client faults symbol self db).1
  = ((get_new_trades client faults symbol self db).1, []).
Proof.
  intros Hok Hagain. unfold get_new_trades.
  destruct (client symbol (start_time self) 1000%nat) as [trades|msg]; [|done].
  destruct (filter_new_healthy trades faults [] db Hok) as (added & Hrun & _ & Hrec).
  destruct (filter_new faults trades [] db) as [db1 result].
  simpl in Hrun, Hrec. subst result. simpl.
  by rewrite (filter_new_all_seen trades again [] db1 Hagain Hrec).
Qed.

Lemma repoll_returns_nothing_witness :
  get_new_trades (Examples.venue [Examples.old_fill; Examples.fill]) [Examples.save_fails]
    "BTCUSDT" {| start_time := 0 |}
    (get_new_trades (Examples.venue [Examples.old_fill; Examples.fill]) []
       "BTCUSDT" {| start_time := 0 |} init_database).1
  = ((get_new_trades (Examples.venue [Examples.old_fill; Examples.fill]) []
        "BTCUSDT" {| start_time := 0 |} init_database).1, []).
Proof.
  apply (repoll_returns_nothing (Examples.venue [Examples.old_fill; Examples.fill]) []
           [Examples.save_fails] "BTCUSDT" {| start_time := 0 |} init_database).
  - constructor.
  - repeat constructor.
Defined.

Lemma filter_new_interrupted before : ∀ trade after f rest new_trades db,
  lookup_raises f = true →
  (filter_new (replicate (length before) healthy ++ f :: rest)
     (before ++ trade :: after) new_trades db).2 = None
  ∧ ∀ saved, saved ∈ before →
      is_Some (processed_trades
                 (filter_new (replicate (length before) healthy ++ f :: rest)
                    (before ++ trade :: after) new_trades db).1 !! id saved).
Proof.
  induction before as [|first before IH]; intros trade after f rest new_trades db Hraise.
  - simpl. unfold is_trade_processed. rewrite Hraise.
    split; [done | by intros ? ?%elem_of_nil].
  - simpl. destruct (bool_decide _) eqn:Hseen.
    + apply bool_decide_eq_true in Hseen as [row Hrow].
      destruct (IH trade after f rest new_trades db Hraise) as [Hnone Hsaved].
      split; [done|]. intros saved [->|Hin]%elem_of_cons; [|by apply Hsaved].
      eexists. by apply filter_new_keeps.
    + destruct (IH trade after f rest (new_trades ++ [first])
                  (save_trade false first db).1 Hraise) as [Hnone Hsaved].
      split; [done|]. intros saved [->|Hin]%elem_of_cons; [|by apply Hsaved].
      destruct (save_trade_recorded first db) as [row Hrow].
      eexists. by apply filter_new_keeps.
Qed.

(** X6.  What a failing lookup costs.  When the lookup raises at some
    trade of the batch, the poll returns nothing, yet the trades before
    it, whose lookups and saves worked, all have a row afterwards: they
    count as processed without having been returned. *)
Theorem interrupted_poll_keeps_rows (client : UMFutures) (symbol : string)
    (self : BinanceTradeMonitor.t) (db : TradeDatabase.t)
    (before after : list Trade) (trade : Trade) (f : StoreFault) (rest : list StoreFault) :
  client symbol (start_time self) 1000%nat = Returns (before ++ trade :: after) →
  lookup_raises f = true →
  (get_new_trades client (replicate (length before) healthy ++ f :: rest)
     symbol self db).2 = []
  ∧ ∀ saved, saved ∈ before →
      is_Some (processed_trades
                 (get_new_trades client (replicate (length before) healthy ++ f :: rest)
                    symbol self db).1 !! id saved).
Proof.
  intros Hclient Hraise. unfold get_new_trades. rewrite Hclient.
  destruct (filter_new_interrupted before trade after f rest [] db Hraise) as [Hnone Hsaved].
  destruct (filter_new _ (before ++ trade :: after) [] db) as [db1 result].
  simpl in Hnone, Hsaved. subst result. done.
Qed.

Lemma interrupted_poll_keeps_rows_witness :
  (get_new_trades (Examples.venue [Examples.old_fill; Examples.fill])
     (replicate (length [Examples.old_fill]) healthy ++ Examples.lookup_fails :: [])
     "BTCUSDT" {| start_time := 0 |} init_database).2 = []
  ∧ ∀ saved, saved ∈ [Examples.old_fill] →
      is_Some (processed_trades
                 (get_new_trades (Examples.venue [Examples.old_fill; Examples.fill])
                    (replicate (length [Examples.old_fill]) healthy
                     ++ Examples.lookup_fails :: [])
                    "BTCUSDT" {| start_time := 0 |} init_database).1 !! id saved).
Proof.
  apply (interrupted_poll_keeps_rows (Examples.venue [Examples.old_fill; Examples.fill])
           "BTCUSDT" {| start_time := 0 |} init_database
           [Examples.old_fill] [] Examples.fill Examples.lookup_fails []);
    reflexivity.
Defined.

End Monitor.

Section Completeness.
Import TradeDatabase BinanceTradeMonitor.

Implicit Types db : TradeDatabase.t.

Local Arguments save_trade : simpl never.






End Completeness.

(** ** main.py: the counters *)

Section Counters.
Import TradeDatabase BinanceTradeCopier TradeCopierService.

Local Arguments BinanceTradeMonitor.get_all_symbols_trades : simpl never.

Lemma copy_trades_count envs trades : ∀ w copied_count,
  (copied_count ≤ (copy_trades envs trades w copied_count).2
   ≤ copied_count + length trades)%nat.
Proof.
  revert envs. induction trades as [|trade rest IH]; intros envs w copied_count; simpl.
  - lia.
  - destruct (copy_trade (hd quiet envs) trade w).2.
    + specialize (IH (tl envs) (copy_trade (hd quiet envs) trade w).1 (S copied_count)). lia.
    + specialize (IH (tl envs) (copy_trade (hd quiet envs) trade w).1 copied_count). lia.
Qed.

Lemma cycle_counters env self :
  (total_trades_found (stats (_monitoring_cycle env self))
     + length (requests (world self))
   = total_trades_found (stats self)
     + length (requests (world (_monitoring_cycle env self))))%nat
  ∧ (total_trades_copied (stats self)
     ≤ total_trades_copied (stats (_monitoring_cycle env self)))%nat
  ∧ (total_trades_copied (stats (_monitoring_cycle env self))
       + total_trades_found (stats self)
     ≤ total_trades_copied (stats self)
       + total_trades_found (stats (_monitoring_cycle env self)))%nat.
Proof.
  pose proof (cycle_requests env self) as Hreq.
  rewrite Hreq, length_app, length_fmap.
  unfold _monitoring_cycle.
  destruct (BinanceTradeMonitor.get_all_symbols_trades _ _ _ _).2 as [|trade rest].
  - simpl. lia.
  - cbn [stats total_trades_found total_trades_copied].
    pose proof (copy_trades_count (copy_envs env) (trade :: rest)
      {| db := (BinanceTradeMonitor.get_all_symbols_trades (source env) (store_faults env)
                  (monitor self) (db (world self))).1;
         requests := requests (world self) |} 0) as Hcount.
    lia.
Qed.

Lemma run_counters envs : ∀ self,
  (total_trades_found (stats (run envs self)) + length (requests (world self))
   = total_trades_found (stats self) + length (requests (world (run envs self))))%nat
  ∧ (total_trades_copied (stats self) ≤ total_trades_copied (stats (run envs self)))%nat
  ∧ (total_trades_copied (stats (run envs self)) + total_trades_found (stats self)
     ≤ total_trades_copied (stats self) + total_trades_found (stats (run envs self)))%nat.
Proof.
  induction envs as [|env rest IH]; intros self.
  - simpl. lia.
  - change (run (env :: rest) self) with (run rest (_monitoring_cycle env self)).
    pose proof (cycle_counters env self). pose proof (IH (_monitoring_cycle env self)). lia.
Qed.

(** X8.  The counters of the service.  Whatever the connection tests
    answer and whatever happens during the cycles, after [start]:
    [total_trades_found] has grown by the number of order requests sent
    (every trade found is sent once), [total_trades_copied] has not
    decreased and has grown by no more than [total_trades_found]; so if
    copied was at most found before, it still is.  When a connection test
    fails, [start] answers [False] and nothing has changed. *)
Theorem start_counters (monitor_time copier_time : Response Z) (envs : list CycleEnv)
    (self : TradeCopierService.t) :
  let after := (start monitor_time copier_time envs self).1 in
  (total_trades_found (stats after) + length (requests (world self))
   = total_trades_found (stats self) + length (requests (world after)))%nat
  ∧ (total_trades_copied (stats self) ≤ total_trades_copied (stats after))%nat
  ∧ (total_trades_copied (stats after) + total_trades_found (stats self)
     ≤ total_trades_copied (stats self) + total_trades_found (stats after))%nat
  ∧ ((total_trades_copied (stats self) ≤ total_trades_found (stats self))%nat →
     (total_trades_copied (stats after) ≤ total_trades_found (stats after))%nat)
  ∧ ((start monitor_time copier_time envs self).2 = false → after = self)
  ∧ ((start monitor_time copier_time envs self).2 = true
     ↔ (∃ t, monitor_time = Returns t) ∧ (∃ t, copier_time = Returns t)).
Proof.
  unfold start, _test_connections, test_connection.
  pose proof (run_counters envs self) as Hrun.
  destruct monitor_time as [t1|m1], copier_time as [t2|m2]; simpl.
  - repeat split; try lia; try done; eauto.
  - repeat split; try lia; try done. by intros [_ [? ?]].
  - repeat split; try lia; try done. by intros [[? ?] _].
  - repeat split; try lia; try done. by intros [[? ?] _].
Qed.

End Counters.

(** ** background_service.py: the stream service *)

Section StreamService.
Import BinanceWebSocketManager TradeCopyService.

Lemma handle_new_trade_records env trade_info self :
  order_id trade_info ∈ processed_orders (handle_new_trade env trade_info self)
  ∧ DatabaseManager.positions (db (handle_new_trade env trade_info self))
    = DatabaseManager.positions (db self).
Proof.
  unfold handle_new_trade. destruct (bool_decide _) eqn:Hseen.
  - by apply bool_decide_eq_true in Hseen.
  - assert (order_id trade_info ∈ processed_orders self ∪ {[order_id trade_info]})
      by (apply elem_of_union_r; by apply elem_of_singleton).
    unfold DatabaseManager.save_trade. by destruct (save_raises env).
Qed.

(** X9.  No retry on the stream path.  Once an order id has been
    delivered, whatever came of it (the order accepted or refused, the
    record saved or not), no later delivery sends a request for that id,
    for as long as the service object lives. *)
Theorem delivered_never_retried (env : Env) (trade_info : TradeInfo)
    (events : list (Env * TradeInfo)) (self : TradeCopyService.t) :
  ∃ sent, requests (deliver events (handle_new_trade env trade_info self))
          = requests (handle_new_trade env trade_info self) ++ sent
    ∧ order_id trade_info ∉ sent.*1.
Proof.
  destruct (deliver_distinct events (handle_new_trade env trade_info self))
    as (_ & sent & Hreq & _ & Hsent).
  exists sent. split; [done|]. intros Hin.
  destruct (Hsent _ Hin) as [Hfresh _].
  by destruct (handle_new_trade_records env trade_info self).
Qed.

(** The columns a record and a request have in common. *)
Lemma deliver_records events : ∀ self,
  ∃ sent records,
    requests (deliver events self) = requests self ++ sent
    ∧ DatabaseManager.trades (db (deliver events self))
      = DatabaseManager.trades (db self) ++ records
    ∧ (length records ≤ length sent)%nat
    ∧ (Forall (λ e, save_raises e.1 = false) events →
       (λ r, (DatabaseManager.source_order_id r, DatabaseManager.tr_symbol r,
              DatabaseManager.tr_side r, DatabaseManager.tr_quantity r)) <$> records
       = (λ s, (s.1, o_symbol s.2, o_side s.2, o_quantity s.2)) <$> sent).
Proof.
  induction events as [|[env trade_info] rest IH]; intros self.
  - exists [], []. simpl. by rewrite !app_nil_r.
  - change (deliver ((env, trade_info) :: rest) self)
      with (deliver rest (handle_new_trade env trade_info self)).
    destruct (IH (handle_new_trade env trade_info self))
      as (sent & records & Hreq & Hrec & Hlen & Hsame).
    destruct (decide (order_id trade_info ∈ processed_orders self)) as [Hseen|Hnew].
    + rewrite handle_new_trade_seen in * by done.
      exists sent, records. repeat split; try done.
      intros [_ Hok]%Forall_cons. by apply Hsame.
    + destruct (save_raises env) eqn:Hsave.
      * exists ((order_id trade_info, order_params trade_info) :: sent), records.
        destruct (handle_new_trade_new env trade_info self Hnew) as [Hreq1 _].
        assert (DatabaseManager.trades (db (handle_new_trade env trade_info self))
                = DatabaseManager.trades (db self)) as Hrec1.
        { unfold handle_new_trade. rewrite bool_decide_eq_false_2 by done.
          unfold DatabaseManager.save_trade. by rewrite Hsave. }
        rewrite Hreq, Hreq1, Hrec, Hrec1, <- app_assoc.
        repeat split; try done; [simpl; lia|].
        intros [Hhd _]%Forall_cons. simpl in Hhd. congruence.
      * exists ((order_id trade_info, order_params trade_info) :: sent),
          (trade_data trade_info
             (copy_trade (order_response env) trade_info (requests self)).2 :: records).
        rewrite handle_new_trade_fresh in * by done. simpl in *.
        rewrite Hreq, Hrec, <- !app_assoc. repeat split; try done; [simpl; lia|].
        intros [_ Hok]%Forall_cons. f_equal. exact (Hsame Hok).
Qed.

(** X10.  Records and requests.  Over any run of deliveries the service
    writes at most one record per order request it sends.  When the
    database never raises, it writes exactly one record per request, in
    the same order and with the same source order id, symbol, side and
    quantity. *)
Theorem one_record_per_request (events : list (Env * TradeInfo))
    (self : TradeCopyService.t) :
  ∃ sent records,
    requests (deliver events self) = requests self ++ sent
    ∧ DatabaseManager.trades (db (deliver events self))
      = DatabaseManager.trades (db self) ++ records
    ∧ (length records ≤ length sent)%nat
    ∧ (Forall (λ e, save_raises e.1 = false) events →
       (λ r, (DatabaseManager.source_order_id r, DatabaseManager.tr_symbol r,
              DatabaseManager.tr_side r, DatabaseManager.tr_quantity r)) <$> records
       = (λ s, (s.1, o_symbol s.2, o_side s.2, o_quantity s.2)) <$> sent).
Proof. apply deliver_records. Qed.


End StreamService.

(** ** background_service.py: the socket manager *)

Section Manager.
Import BinanceWebSocketManager.



Lemma handle_bounded self event :
  (reconnect_attempts self ≤ max_reconnect_attempts self)%nat →
  max_reconnect_attempts (handle self event) = max_reconnect_attempts self
  ∧ (reconnect_attempts (handle self event) ≤ max_reconnect_attempts self)%nat
  ∧ (slept (handle self event) = slept self
     ∨ (∃ response, event = Closed response) ∧ running self = true
       ∧ slept (handle self event) = slept self ++ [5]).
Proof.
  intros Hle. destruct event as [| |response]; simpl.
  - repeat split; [lia | by left].
  - repeat split; [done | by left].
  - unfold on_close, start_user_data_stream.
    destruct (running self) eqn:Hrun; simpl; [|repeat split; [done | by left]].
    destruct (reconnect_attempts self <? max_reconnect_attempts self)%nat eqn:Hlt;
      [|repeat split; [done | by left]].
    apply Nat.ltb_lt in Hlt.
    destruct (get_listen_key response) as [key|]; [destruct (truthy key)|]; simpl;
      (split; [done|]; split; [lia|]; right; eauto).
Qed.

(** X13.  The attempt counter stays within its bound.  From a manager
    whose counter is within [max_reconnect_attempts], after any sequence
    of socket events, in any order, the counter is still within the
    bound, the bound is what it was, and every sleep made on the way was
    one of 5 seconds, at most one for each close. *)
Theorem attempts_bounded (events : list Event) (self : BinanceWebSocketManager.t) :
  (reconnect_attempts self ≤ max_reconnect_attempts self)%nat →
  max_reconnect_attempts (run events self) = max_reconnect_attempts self
  ∧ (reconnect_attempts (run events self) ≤ max_reconnect_attempts self)%nat
  ∧ ∃ added, slept (run events self) = slept self ++ added
      ∧ Forall (λ seconds, seconds = 5) added
      ∧ (length added ≤ closes events)%nat.
Proof.
  revert self. induction events as [|event rest IH]; intros self Hle.
  - simpl. repeat split; try done. exists []. by rewrite app_nil_r.
  - change (run (event :: rest) self) with (run rest (handle self event)).
    destruct (handle_bounded self event Hle) as (Hmax & Hatt & Hslept).
    destruct (IH (handle self event)) as (Hmax' & Hatt' & added & Hadded & Hfive & Hlen);
      [by rewrite Hmax|].
    split; [congruence|]. split; [by rewrite <- Hmax|].
    destruct Hslept as [Hsame|((response & ->) & _ & Hmore)].
    + exists added. rewrite Hadded, Hsame. repeat split; try done.
      unfold closes in *. rewrite filter_cons. case_decide; simpl; lia.
    + exists (5 :: added). rewrite Hadded, Hmore, <- app_assoc.
      split; [done|]. split; [by constructor|].
      unfold closes in *. rewrite filter_cons_True by done. simpl. lia.
Qed.

Lemma attempts_bounded_witness :
  max_reconnect_attempts
    (run [Closed (Raises "no key"); Opened; Failed; Closed (Returns "k")] Examples.started)
  = max_reconnect_attempts Examples.started
  ∧ (reconnect_attempts
       (run [Closed (Raises "no key"); Opened; Failed; Closed (Returns "k")] Examples.started)
     ≤ max_reconnect_attempts Examples.started)%nat
  ∧ ∃ added,
      slept (run [Closed (Raises "no key"); Opened; Failed; Closed (Returns "k")]
               Examples.started)
      = slept Examples.started ++ added
      ∧ Forall (λ seconds, seconds = 5) added
      ∧ (length added
         ≤ closes [Closed (Raises "no key"); Opened; Failed; Closed (Returns "k")])%nat.
Proof.
  apply (attempts_bounded [Closed (Raises "no key"); Opened; Failed; Closed (Returns "k")]
           Examples.started).
  vm_compute. lia.
Defined.

End Manager.

(** ** Passes over the positions table *)

Section Resync.
Import DatabaseManager.

Implicit Types tbl : gmap (string * string) PositionRow.
Implicit Types fetched : list Position.

Lemma insert_open_fails_iff account_type fetched : ∀ tbl,
  insert_open account_type fetched tbl = None
  ↔ ∃ pos, pos ∈ fetched ∧ is_open pos = true ∧ p_symbol pos = None.
Proof.
  induction fetched as [|pos rest IH]; intros tbl; simpl.
  - split; [done|]. intros (pos & Hin & _). by apply elem_of_nil in Hin.
  - destruct (is_open pos) eqn:Hopen.
    + destruct (p_symbol pos) as [sym|] eqn:Hsym.
      * rewrite IH. split.
        -- intros (p & Hin & ?). exists p. split; [by apply list_elem_of_further | done].
        -- intros (p & Hin & Hp & Hnone). apply elem_of_cons in Hin as [->|Hin].
           ++ congruence.
           ++ by exists p.
      * split; [|done]. intros _. exists pos. split; [apply list_elem_of_here | done].
    + rewrite IH. split.
      * intros (p & Hin & ?). exists p. split; [by apply list_elem_of_further | done].
      * intros (p & Hin & Hp & Hnone). apply elem_of_cons in Hin as [->|Hin].
        -- congruence.
        -- by exists p.
Qed.


Lemma insert_open_app account_type pre : ∀ post tbl,
  insert_open account_type (pre ++ post) tbl
  = insert_open account_type pre tbl ≫= insert_open account_type post.
Proof.
  induction pre as [|pos rest IH]; intros post tbl; simpl; [done|].
  destruct (is_open pos); [|apply IH].
  destruct (p_symbol pos); [apply IH | done].
Qed.

Lemma insert_open_untouched account_type fetched symbol : ∀ tbl tbl',
  insert_open account_type fetched tbl = Some tbl' →
  (∀ pos, pos ∈ fetched → is_open pos = true → p_symbol pos ≠ Some symbol) →
  tbl' !! (account_type, symbol) = tbl !! (account_type, symbol).
Proof.
  induction fetched as [|pos rest IH]; intros tbl tbl' Hrun Hnot; simpl in Hrun.
  - by inversion Hrun.
  - assert (∀ p, p ∈ rest → is_open p = true → p_symbol p ≠ Some symbol) as Hrest.
    { intros p Hp. apply Hnot. by apply list_elem_of_further. }
    destruct (is_open pos) eqn:Hopen; [|by apply IH].
    destruct (p_symbol pos) as [sym|] eqn:Hsym; [|done].
    rewrite (IH _ _ Hrun Hrest). apply lookup_insert_ne.
    intros Heq. apply (Hnot pos (list_elem_of_here _ _) Hopen). congruence.
Qed.




(** X16.  The last duplicate wins.  When the fetch lists a symbol more
    than once, the row stored for it after a pass that returned is the
    row of the last open position of that symbol. *)
Theorem last_duplicate_wins (account_type symbol : string) (pre post : list Position)
    (pos : Position) (db : DatabaseManager.t) :
  is_open pos = true →
  p_symbol pos = Some symbol →
  (∀ later, later ∈ post → is_open later = true → p_symbol later ≠ Some symbol) →
  (update_positions account_type (pre ++ pos :: post) db).2 = true →
  positions (update_positions account_type (pre ++ pos :: post) db).1
    !! (account_type, symbol) = Some (position_row pos).
Proof.
  intros Hopen Hsym Hlater. unfold update_positions.
  rewrite insert_open_app.
  destruct (insert_open account_type pre (delete_account account_type (positions db)))
    as [tbl|]; simpl; [|done].
  rewrite Hopen, Hsym.
  destruct (insert_open account_type post
              (<[(account_type, symbol) := position_row pos]> tbl)) as [tbl'|] eqn:Hrun;
    simpl; [|done].
  intros _. rewrite (insert_open_untouched _ _ _ _ _ Hrun Hlater).
  apply lookup_insert_eq.
Qed.

Lemma last_duplicate_wins_witness :
  positions (update_positions "real"
               ([Examples.short_xrp; Examples.long_eth]
                ++ {| p_symbol := Some "ETHUSDT"; positionAmt := Some (-5 # 1)%Q;
                      entryPrice := None; markPrice := None;
                      unRealizedProfit := None; p_percentage := None |}
                   :: [Examples.flat_btc; Examples.short_xrp])
               Examples.stored).1
    !! ("real"%string, "ETHUSDT"%string)
  = Some (position_row
            {| p_symbol := Some "ETHUSDT"; positionAmt := Some (-5 # 1)%Q;
               entryPrice := None; markPrice := None;
               unRealizedProfit := None; p_percentage := None |}).
Proof.
  apply (last_duplicate_wins "real" "ETHUSDT" [Examples.short_xrp; Examples.long_eth]
           [Examples.flat_btc; Examples.short_xrp]).
  - reflexivity.
  - reflexivity.
  - intros later Hin Hopen.
    apply elem_of_cons in Hin as [->|Hin]; [discriminate Hopen|].
    apply elem_of_cons in Hin as [->|Hin]; [discriminate|].
    by apply elem_of_nil in Hin.
  - reflexivity.
Defined.





End Resync.

Section PositionsPass.
Import DatabaseManager TradeCopyService.

(** X19.  What the periodic pass of the service never touches.  Whatever
    the two fetches give, [update_positions] of the service leaves the
    set of processed orders, the orders sent, the [trades] table, and the
    rows of every account type other than "real" and "testnet" as they
    were. *)
Theorem positions_pass_frame (env : PositionsEnv) (self : TradeCopyService.t) :
  processed_orders (TradeCopyService.update_positions env self) = processed_orders self
  ∧ requests (TradeCopyService.update_positions env self) = requests self
  ∧ trades (db (TradeCopyService.update_positions env self)) = trades (db self)
  ∧ ∀ a symbol : string, a ≠ "real"%string → a ≠ "testnet"%string →
      positions (db (TradeCopyService.update_positions env self)) !! (a, symbol)
      = positions (db self) !! (a, symbol).
Proof.
  assert (∀ account fetched d a symbol, a ≠ account →
            positions (DatabaseManager.update_positions account fetched d).1 !! (a, symbol)
            = positions d !! (a, symbol)) as Hrows.
  { intros account fetched d a symbol Hne. unfold DatabaseManager.update_positions.
    destruct (insert_open account fetched (delete_account account (positions d)))
      as [tbl|] eqn:Hrun; simpl; [|done].
    rewrite (insert_open_other _ _ _ _ _ _ Hrun Hne). by apply delete_account_other. }
  assert (∀ account fetched d,
            trades (DatabaseManager.update_positions account fetched d).1 = trades d)
    as Htrades.
  { intros account fetched d. unfold DatabaseManager.update_positions.
    by destruct (insert_open account fetched (delete_account account (positions d))). }
  unfold TradeCopyService.update_positions.
  destruct (real_positions env) as [real|msg]; [|done].
  destruct (DatabaseManager.update_positions "real" real (db self)).2 eqn:Hreal.
  - destruct (test_positions env) as [test|msg]; simpl.
    + split; [done|]. split; [done|]. split; [by rewrite !Htrades|].
      intros a symbol Hr Ht. by rewrite !Hrows.
    + split; [done|]. split; [done|]. split; [by rewrite Htrades|].
      intros a symbol Hr Ht. by rewrite Hrows.
  - simpl. split; [done|]. split; [done|]. split; [by rewrite Htrades|].
    intros a symbol Hr Ht. by rewrite Hrows.
Qed.

(** X20.  A failure on the real account ends the pass.  When the fetch
    of the real account raises, or holds an open position without a
    symbol, the service is left as it was: the rows of "real" are not
    replaced and the test account is not fetched, so its rows stay as
    well. *)
Theorem real_failure_skips_testnet (env : PositionsEnv) (self : TradeCopyService.t) :
  (∃ msg, real_positions env = Raises msg)
  ∨ (∃ real pos, real_positions env = Returns real
       ∧ pos ∈ real ∧ is_open pos = true ∧ p_symbol pos = None) →
  TradeCopyService.update_positions env self = self.
Proof.
  intros [(msg & Hraise) | (real & pos & Hreal & Hbad)];
    unfold TradeCopyService.update_positions.
  - by rewrite Hraise.
  - rewrite Hreal. unfold DatabaseManager.update_positions.
    destruct (insert_open "real" real (delete_account "real" (positions (db self))))
      as [tbl|] eqn:Hrun.
    + assert (insert_open "real" real (delete_account "real" (positions (db self))) = None)
        as Hnone by (apply insert_open_fails_iff; eauto).
      congruence.
    + simpl. by destruct self.
Qed.

Lemma real_failure_skips_testnet_witness :
  TradeCopyService.update_positions
    {| real_positions :=
         Returns [Examples.long_eth;
                  {| p_symbol := None; positionAmt := Some (1 # 1)%Q;
                     entryPrice := None; markPrice := None;
                     unRealizedProfit := None; p_percentage := None |}];
       test_positions := Returns [Examples.short_xrp] |}
    {| processed_orders := ∅; db := Examples.stored; requests := [] |}
  = {| processed_orders := ∅; db := Examples.stored; requests := [] |}.
Proof.
  apply (real_failure_skips_testnet
           {| real_positions :=
                Returns [Examples.long_eth;
                         {| p_symbol := None; positionAmt := Some (1 # 1)%Q;
                            entryPrice := None; markPrice := None;
                            unRealizedProfit := None; p_percentage := None |}];
              test_positions := Returns [Examples.short_xrp] |}).
  right. eexists _, _. split; [reflexivity|].
  split; [apply list_elem_of_further, list_elem_of_here|]. by split.
Defined.

End PositionsPass.
